(** * telegram-file-bot: the webhook relay of [src/worker.js]

    A shallow embedding of the Cloudflare worker: the dispatcher
    ([handleWebhook], [onUpdate]), the relay pipeline ([onMessage]) with its
    classification cascade, and the four upload operations.

    Conventions of the embedding.
    - An [async] function is a computation in the monad [Prog]: it records
      the outbound calls it issues, in order, and ends normally or by a
      throw.  A thrown value is an [Error] object; only its [message] is
      ever observed (line 100), so a throw carries that string.
    - The outside world (the remote server, the Telegram API) is a record
      [World] of replies, one per outbound call; every theorem quantifies
      over it.  The record also holds the one step of the platform's URL
      parser that needs the Unicode tables.
    - Strings are sequences of 8-bit code units.  [toLowerCase] and the
      [/i] flag of the regular expressions act on the letters A-Z / a-z and
      leave every other unit alone, which is what ECMAScript does on ASCII
      text.
    - [parseInt] returns [option Z], [None] being NaN.  The source compares
      the IEEE double with 50 * 1024 * 1024; rounding to a double is
      monotone and exact below 2^53, so the comparison on [Z] gives the same
      answer. *)

From Stdlib Require Import String Ascii List ZArith NArith Bool Lia.
Import ListNotations.
Open Scope string_scope.

(** ** Completions *)

Inductive outcome (A : Type) : Type :=
| Normal (a : A)
| Throw (message : string).
Arguments Normal {A} a.
Arguments Throw {A} message.

(** ** The string built-ins the worker calls *)

Module Str.

Definition code (c : ascii) : N := N_of_ascii c.

Definition between (lo hi : N) (c : ascii) : bool :=
  ((lo <=? code c) && (code c <=? hi))%N.

Definition is_upper : ascii -> bool := between 65 90.
Definition is_lower : ascii -> bool := between 97 122.
Definition is_digit : ascii -> bool := between 48 57.
Definition is_alpha (c : ascii) : bool := is_upper c || is_lower c.

Definition lower_unit (c : ascii) : ascii :=
  if is_upper c then ascii_of_N (code c + 32) else c.

Definition upper_unit (c : ascii) : ascii :=
  if is_lower c then ascii_of_N (code c - 32) else c.

Fixpoint map (f : ascii -> ascii) (s : string) : string :=
  match s with
  | EmptyString => EmptyString
  | String c r => String (f c) (map f r)
  end.

(** [String.prototype.toLowerCase] *)
Definition toLowerCase : string -> string := map lower_unit.

(** [String.prototype.startsWith] *)
Fixpoint startsWith (s searchString : string) {struct searchString} : bool :=
  match searchString, s with
  | EmptyString, _ => true
  | String p ps, String c cs => Ascii.eqb p c && startsWith cs ps
  | String _ _, EmptyString => false
  end.

(** [String.prototype.split] with a one-character separator: the result is
    never empty, and [split sep ""] is [[""]]. *)
Fixpoint split (sep : ascii) (s : string) : list string :=
  match s with
  | EmptyString => [EmptyString]
  | String c r =>
      if Ascii.eqb c sep then EmptyString :: split sep r
      else match split sep r with
           | h :: t => String c h :: t
           | [] => [String c EmptyString]
           end
  end.

(** [Array.prototype.pop]: the last element, [undefined] on an empty array. *)
Fixpoint pop (l : list string) : option string :=
  match l with
  | [] => None
  | [x] => Some x
  | _ :: t => pop t
  end.

(** Equality of two strings up to the case folding of the [/i] flag
    (Canonicalize maps a code unit to its upper-case form). *)
Definition eqb_i (a b : string) : bool :=
  String.eqb (map upper_unit a) (map upper_unit b).

(** [/pat$/i.test(s)] for a pattern [pat] of literal characters: the search
    tries every start position, and the anchor [$] lets a match end only at
    the end of the input. *)
Fixpoint test_anchored_end_i (pat s : string) : bool :=
  eqb_i pat s ||
  match s with
  | EmptyString => false
  | String _ r => test_anchored_end_i pat r
  end.

(** [/\.(e1|e2|...)$/i.test(s)]: the alternation is tried left to right. *)
Definition test_extension (alternatives : list string) (s : string) : bool :=
  existsb (fun e => test_anchored_end_i ("." ++ e) s) alternatives.

End Str.

(** ** Classification (lines 89-98 and 233-249) *)

Inductive UploadKind : Type := Photo | Video | Audio | Document.

Definition isImageExtension (fileName : string) : bool :=
  Str.test_extension ["jpg"; "jpeg"; "png"; "gif"; "bmp"; "webp"; "svg"] fileName.

Definition isVideoExtension (fileName : string) : bool :=
  Str.test_extension ["mp4"; "avi"; "mov"; "mkv"; "wmv"; "flv"; "webm"] fileName.

Definition isAudioExtension (fileName : string) : bool :=
  Str.test_extension ["mp3"; "wav"; "aac"; "flac"; "ogg"; "m4a"] fileName.

(** The message of the TypeError V8 raises for a method call on [null]. *)
Definition null_method_error (method : string) : string :=
  "Cannot read properties of null (reading '" ++ method ++ "')".

(** [contentType.startsWith(prefix)] where [contentType] is what
    [headers.get('content-type')] returned: a string, or [null] when the
    response carries no such header. *)
Definition contentType_startsWith (contentType : option string) (prefix : string)
  : outcome bool :=
  match contentType with
  | Some ct => Normal (Str.startsWith ct prefix)
  | None => Throw (null_method_error "startsWith")
  end.

Definition bind_outcome {A B} (m : outcome A) (k : A -> outcome B) : outcome B :=
  match m with
  | Normal a => k a
  | Throw e => Throw e
  end.

(** The cascade of lines 89-98, returning the branch that is taken.  In
    [a || b] the left operand is evaluated first, so the method call on
    [contentType] comes before the extension test of the same line. *)
Definition classify (contentType : option string) (fileName : string)
  : outcome UploadKind :=
  let lowerCaseFileName := Str.toLowerCase fileName in
  bind_outcome (contentType_startsWith contentType "image/") (fun isImage =>
  if isImage || isImageExtension lowerCaseFileName then Normal Photo
  else
  bind_outcome (contentType_startsWith contentType "video/") (fun isVideo =>
  if isVideo || isVideoExtension lowerCaseFileName then Normal Video
  else
  bind_outcome (contentType_startsWith contentType "audio/") (fun isAudio =>
  if isAudio || isAudioExtension lowerCaseFileName then Normal Audio
  else Normal Document))).

(** ** JavaScript values

    What [request.json()] can produce, plus [undefined].  A number is carried
    by its canonical rendering (Number::toString), which is all the worker
    ever observes of one. *)

#[warnings="-register-all"]
Inductive value : Type :=
| VUndefined
| VNull
| VBool (b : bool)
| VNum (rendering : string)
| VStr (s : string)
| VArr (items : list value)
| VObj (props : list (string * value)).

Fixpoint lookup (name : string) (props : list (string * value)) : option value :=
  match props with
  | [] => None
  | (k, v) :: rest => if String.eqb k name then Some v else lookup name rest
  end.

(** [base.name], for the names the worker reads ([message], [chat], [id],
    [text], [ok], [description]); none of them is defined on a built-in
    prototype, so only an object's own properties can answer. *)
Definition get_prop (base : value) (name : string) : outcome value :=
  match base with
  | VUndefined =>
      Throw ("Cannot read properties of undefined (reading '" ++ name ++ "')")
  | VNull => Throw (null_method_error name)
  | VObj props =>
      match lookup name props with
      | Some v => Normal v
      | None => Normal VUndefined
      end
  | _ => Normal VUndefined
  end.

(** The abstract operation ToString. *)
Fixpoint ToString (v : value) : string :=
  match v with
  | VUndefined => "undefined"
  | VNull => "null"
  | VBool true => "true"
  | VBool false => "false"
  | VNum rendering => rendering
  | VStr s => s
  | VArr items =>
      String.concat ","
        (List.map (fun x => match x with
                            | VUndefined | VNull => ""
                            | _ => ToString x
                            end) items)
  | VObj _ => "[object Object]"
  end.

(** [name in v]: a TypeError unless [v] is an object. *)
Definition has_property (name : string) (v : value) : outcome bool :=
  match v with
  | VObj props =>
      Normal (match lookup name props with Some _ => true | None => false end)
  | VArr _ => Normal false
  | _ => Throw ("Cannot use 'in' operator to search for '" ++ name ++ "' in "
                ++ ToString v)
  end.

(** The abstract operation ToBoolean. *)
Definition truthy (v : value) : bool :=
  match v with
  | VUndefined | VNull => false
  | VBool b => b
  | VNum rendering => negb (String.eqb rendering "0" || String.eqb rendering "NaN")
  | VStr s => negb (String.eqb s "")
  | VArr _ | VObj _ => true
  end.

(** ** [parseInt(string, 10)] *)

Definition is_white_space (c : ascii) : bool :=
  Str.between 9 13 c || N.eqb (Str.code c) 32 || N.eqb (Str.code c) 160.

Fixpoint trim_start (s : string) : string :=
  match s with
  | String c r => if is_white_space c then trim_start r else s
  | EmptyString => EmptyString
  end.

Definition digit_value (c : ascii) : Z := Z.of_N (Str.code c) - 48.

(** The value of the longest prefix of decimal digits; [None] when it is
    empty. *)
Fixpoint digits_prefix (acc : option Z) (s : string) : option Z :=
  match s with
  | String c r =>
      if Str.is_digit c
      then digits_prefix
             (Some (10 * match acc with Some a => a | None => 0 end
                    + digit_value c)%Z) r
      else acc
  | EmptyString => acc
  end.

Definition parseInt10 (s : string) : option Z :=
  match trim_start s with
  | String "-" r => option_map Z.opp (digits_prefix None r)
  | String "+" r => digits_prefix None r
  | t => digits_prefix None t
  end.

(** [parseInt(fileResponse.headers.get('content-length'), 10)]: a missing
    header is [null], which [parseInt] first turns into the string "null". *)
Definition parseInt_header (h : option string) : option Z :=
  parseInt10 (match h with Some s => s | None => ToString VNull end).

(** [contentLength > limit] on numbers: false when either side is NaN. *)
Definition number_gt (contentLength : option Z) (limit : Z) : bool :=
  match contentLength with
  | Some n => (limit <? n)%Z
  | None => false
  end.

(** ** Form encoding

    [new URLSearchParams(params).toString()] is the
    application/x-www-form-urlencoded serializer: names and values are
    encoded to UTF-8, a space becomes [+], the bytes of ASCII letters and
    digits and of [*], [-], [.], [_] stay, every other byte becomes [%XX]
    with upper-case hexadecimal digits. *)

Module Form.

Fixpoint flat_map (f : ascii -> string) (s : string) : string :=
  match s with
  | EmptyString => EmptyString
  | String c r => f c ++ flat_map f r
  end.

(** UTF-8 of the code point of one 8-bit code unit. *)
Definition utf8 (c : ascii) : string :=
  if (Str.code c <? 128)%N then String c ""
  else String (ascii_of_N (192 + Str.code c / 64))
         (String (ascii_of_N (128 + Str.code c mod 64)) "").

Definition hex_upper (n : N) : ascii :=
  if (n <? 10)%N then ascii_of_N (48 + n) else ascii_of_N (55 + n).

Definition percent (b : ascii) : string :=
  String "%" (String (hex_upper (Str.code b / 16))
                (String (hex_upper (Str.code b mod 16)) "")).

Definition unreserved (b : ascii) : bool :=
  Str.is_alpha b || Str.is_digit b || Ascii.eqb b "*" || Ascii.eqb b "-"
  || Ascii.eqb b "." || Ascii.eqb b "_".

Definition encode_byte (b : ascii) : string :=
  if Ascii.eqb b " " then "+"
  else if unreserved b then String b ""
  else percent b.

Definition encode (s : string) : string :=
  flat_map encode_byte (flat_map utf8 s).

Definition serialize (tuples : list (string * string)) : string :=
  String.concat "&"
    (List.map (fun p => encode (fst p) ++ "=" ++ encode (snd p)) tuples).

(** The units the serializer can emit inside a name or a value. *)
Definition plain (c : ascii) : bool :=
  unreserved c || Ascii.eqb c "+" || Ascii.eqb c "%".

(** The inverse the receiving side applies to a name or a value: [+] is a
    space, [%XX] is a byte, and the bytes are read as UTF-8.  It is used
    below only to show that [encode] loses nothing. *)
Definition hex_value (c : ascii) : option N :=
  if Str.is_digit c then Some (Str.code c - 48)%N
  else if Str.between 65 70 c then Some (Str.code c - 55)%N
  else if Str.between 97 102 c then Some (Str.code c - 87)%N
  else None.

Fixpoint percent_decode (s : string) : string :=
  match s with
  | EmptyString => EmptyString
  | String c r =>
      if Ascii.eqb c "+" then String " " (percent_decode r)
      else if Ascii.eqb c "%" then
        match r with
        | String h (String l r') =>
            match hex_value h, hex_value l with
            | Some hv, Some lv =>
                String (ascii_of_N (16 * hv + lv)) (percent_decode r')
            | _, _ => String c (percent_decode r)
            end
        | _ => String c (percent_decode r)
        end
      else String c (percent_decode r)
  end.

Fixpoint utf8_decode (s : string) : string :=
  match s with
  | EmptyString => EmptyString
  | String b r =>
      if (Str.code b <? 128)%N then String b (utf8_decode r)
      else
        match r with
        | String b' r' =>
            String (ascii_of_N ((Str.code b - 192) * 64 + (Str.code b' - 128)))
              (utf8_decode r')
        | EmptyString => String b EmptyString
        end
  end.

Definition decode (s : string) : string := utf8_decode (percent_decode s).

End Form.

(** ** The platform's URL parser

    [new URL(string)] runs the basic URL parser of the WHATWG URL Standard
    without a base URL.  The model follows the parser's states, the host
    parser with its IPv4, IPv6 and opaque-host parsers included.  Two things
    are not computed.  The path, the query and the fragment are kept as
    written: their percent-encoding and the removal of dot segments never
    fail, and nothing in the worker reads them.  Unicode ToASCII (UTS 46),
    which the host parser runs on a domain, needs the Unicode tables: it is
    the parameter [unicode_ToASCII], from the bytes of the domain to its
    ASCII form or a failure.  The standard itself notes that on an ASCII
    domain none of whose labels starts with [xn--] that step is ASCII
    lower-casing; the model computes this case and asks the parameter only
    for the other domains. *)

Module URL.

(** A host: a domain, an IPv4 address, an IPv6 address (eight pieces), an
    opaque host, or the empty host. *)
Inductive Host : Type :=
| Domain (name : string)
| IPv4 (address : N)
| IPv6 (pieces : list N)
| Opaque (text : string)
| Empty.

Definition is_empty_host (h : Host) : bool :=
  match h with
  | Empty | Domain EmptyString | Opaque EmptyString => true
  | _ => false
  end.

Record t : Type := mk {
  scheme : string;
  host : option Host;        (* [None] is the null host *)
  port : string;
  path : string;             (* as written, before normalisation *)
  query : option string;
  fragment : option string
}.

(** The longest prefix whose units all fail [stop], and the rest. *)
Fixpoint break_at (stop : ascii -> bool) (s : string) : string * string :=
  match s with
  | EmptyString => (EmptyString, EmptyString)
  | String c r =>
      if stop c then (EmptyString, s)
      else let (a, b) := break_at stop r in (String c a, b)
  end.

Fixpoint drop_while (p : ascii -> bool) (s : string) : string :=
  match s with
  | String c r => if p c then drop_while p r else s
  | EmptyString => EmptyString
  end.

Fixpoint drop_while_end (p : ascii -> bool) (s : string) : string :=
  match s with
  | EmptyString => EmptyString
  | String c r =>
      match drop_while_end p r with
      | EmptyString => if p c then EmptyString else String c EmptyString
      | r' => String c r'
      end
  end.

Fixpoint filter (p : ascii -> bool) (s : string) : string :=
  match s with
  | EmptyString => EmptyString
  | String c r => if p c then String c (filter p r) else filter p r
  end.

Fixpoint existsb (p : ascii -> bool) (s : string) : bool :=
  match s with
  | EmptyString => false
  | String c r => p c || existsb p r
  end.

Definition eqc (c d : ascii) : bool := Ascii.eqb c d.

Definition c0_control_or_space (c : ascii) : bool := (Str.code c <=? 32)%N.

Definition tab_or_newline (c : ascii) : bool :=
  N.eqb (Str.code c) 9 || N.eqb (Str.code c) 10 || N.eqb (Str.code c) 13.

(** Steps 1-3 of the basic URL parser. *)
Definition preprocess (input : string) : string :=
  filter (fun c => negb (tab_or_newline c))
    (drop_while_end c0_control_or_space (drop_while c0_control_or_space input)).

Definition scheme_unit (c : ascii) : bool :=
  Str.is_alpha c || Str.is_digit c || eqc c "+" || eqc c "-" || eqc c ".".

(** Scheme start state and scheme state.  Without a base URL the no scheme
    state is a failure, so an input with no [scheme:] prefix does not
    parse. *)
Definition scan_scheme (s : string) : option (string * string) :=
  match s with
  | String c r =>
      if Str.is_alpha c then
        let (buffer, rest) := break_at (fun x => negb (scheme_unit x)) r in
        match rest with
        | String ":" remaining =>
            Some (Str.toLowerCase (String c buffer), remaining)
        | _ => None
        end
      else None
  | EmptyString => None
  end.

Definition is_special (scheme : string) : bool :=
  List.existsb (String.eqb scheme) ["ftp"; "file"; "http"; "https"; "ws"; "wss"].

(** Path, query and fragment states: no failure. *)
Definition split_tail (s : string) : string * option string * option string :=
  let (p, r) := break_at (fun c => eqc c "?" || eqc c "#") s in
  match r with
  | String "?" q =>
      let (qs, f) := break_at (fun c => eqc c "#") q in
      (p, Some qs, match f with String "#" fr => Some fr | _ => None end)
  | String "#" fr => (p, None, Some fr)
  | _ => (p, None, None)
  end.

Definition forbidden_host_code_point (c : ascii) : bool :=
  N.eqb (Str.code c) 0 || tab_or_newline c || eqc c " " || eqc c "#" || eqc c "/"
  || eqc c ":" || eqc c "<" || eqc c ">" || eqc c "?" || eqc c "@" || eqc c "["
  || eqc c "\" || eqc c "]" || eqc c "^" || eqc c "|".

Definition forbidden_domain_code_point (c : ascii) : bool :=
  forbidden_host_code_point c || (Str.code c <=? 31)%N || eqc c "%"
  || N.eqb (Str.code c) 127.

Fixpoint ends_with_unit (d : ascii) (s : string) : bool :=
  match s with
  | EmptyString => false
  | String c EmptyString => eqc c d
  | String _ r => ends_with_unit d r
  end.

Fixpoint forallb (p : ascii -> bool) (s : string) : bool :=
  match s with
  | EmptyString => true
  | String c r => p c && forallb p r
  end.

Fixpoint remove_last (s : string) : string :=
  match s with
  | EmptyString => EmptyString
  | String _ EmptyString => EmptyString
  | String c r => String c (remove_last r)
  end.

(** Percent-decode of a byte sequence: [%XX] with two hexadecimal digits is
    one byte, every other byte stands for itself. *)
Fixpoint percent_decode (s : string) : string :=
  match s with
  | EmptyString => EmptyString
  | String c r =>
      if eqc c "%" then
        match r with
        | String h (String l r') =>
            match Form.hex_value h, Form.hex_value l with
            | Some hv, Some lv =>
                String (ascii_of_N (16 * hv + lv)) (percent_decode r')
            | _, _ => String c (percent_decode r)
            end
        | _ => String c (percent_decode r)
        end
      else String c (percent_decode r)
  end.

(** *** The IPv4 parser *)

Fixpoint radix_value (R acc : N) (s : string) : option N :=
  match s with
  | EmptyString => Some acc
  | String c r =>
      match Form.hex_value c with
      | Some d => if (d <? R)%N then radix_value R (acc * R + d)%N r else None
      | None => None
      end
  end.

(** The IPv4 number parser: [0x] or [0X] announces radix 16, another leading
    [0] radix 8; what is left may be empty and is then 0. *)
Definition ipv4_number (input : string) : option N :=
  match input with
  | EmptyString => None
  | String "0" (String x r) =>
      if eqc x "x" || eqc x "X" then radix_value 16 0 r
      else radix_value 8 0 (String x r)
  | _ => radix_value 10 0 input
  end.

(** The parts between the dots, without the empty part that a final dot
    leaves, unless it is the only part. *)
Definition ipv4_parts (input : string) : list string :=
  let parts := Str.split "." input in
  if String.eqb (List.last parts "") "" && (1 <? List.length parts)%nat
  then List.removelast parts else parts.

(** The ends-in-a-number checker. *)
Definition ends_in_a_number (input : string) : bool :=
  let parts := Str.split "." input in
  if String.eqb (List.last parts "") "" && Nat.eqb (List.length parts) 1 then false
  else
    let last := List.last (ipv4_parts input) "" in
    if negb (String.eqb last "") && forallb Str.is_digit last then true
    else match ipv4_number last with
         | Some _ => true
         | None => false
         end.

Fixpoint ipv4_numbers (parts : list string) : option (list N) :=
  match parts with
  | [] => Some []
  | part :: rest =>
      match ipv4_number part, ipv4_numbers rest with
      | Some n, Some ns => Some (n :: ns)
      | _, _ => None
      end
  end.

(** [ipv4 + n * 256 ^ (3 - counter)] over the numbers before the last. *)
Fixpoint ipv4_sum (counter : N) (numbers : list N) : N :=
  match numbers with
  | [] => 0
  | n :: rest => (n * 256 ^ (3 - counter) + ipv4_sum (counter + 1) rest)%N
  end.

Definition ipv4_parse (input : string) : option N :=
  let parts := ipv4_parts input in
  if (4 <? List.length parts)%nat then None
  else
    match ipv4_numbers parts with
    | None => None
    | Some numbers =>
        if List.existsb (fun n => (255 <? n)%N) (List.removelast numbers) then None
        else if (256 ^ (5 - N.of_nat (List.length numbers))
                   <=? List.last numbers 0)%N then None
        else Some (List.last numbers 0 + ipv4_sum 0 (List.removelast numbers))%N
    end.

(** *** The IPv6 parser *)

(** Up to [max] hexadecimal digits: their value, how many, and the rest. *)
Fixpoint take_hex (max : nat) (value : N) (length : nat) (s : string)
  : N * nat * string :=
  match max, s with
  | S m, String c r =>
      match Form.hex_value c with
      | Some d => take_hex m (value * 16 + d)%N (S length) r
      | None => (value, length, s)
      end
  | _, _ => (value, length, s)
  end.

Fixpoint set_nth (l : list N) (i : nat) (v : N) : list N :=
  match l, i with
  | [], _ => []
  | _ :: t, O => v :: t
  | x :: t, S j => x :: set_nth t j v
  end.

(** The digits of one part of an IPv4 address inside an IPv6 address: no
    leading zero, at most 255. *)
Fixpoint ipv4_piece (piece : option N) (s : string) : option (option N * string) :=
  match s with
  | String c r =>
      if Str.is_digit c then
        let number := (Str.code c - 48)%N in
        match piece with
        | None => ipv4_piece (Some number) r
        | Some 0%N => None
        | Some p =>
            if (255 <? p * 10 + number)%N then None
            else ipv4_piece (Some (p * 10 + number)%N) r
        end
      else Some (piece, s)
  | EmptyString => Some (piece, s)
  end.

(** The loop over the dotted part, from its first digit. *)
Fixpoint ipv4_in_ipv6 (fuel : nat) (address : list N) (pieceIndex numbersSeen : nat)
  (s : string) : option (list N * nat) :=
  match s with
  | EmptyString => if Nat.eqb numbersSeen 4 then Some (address, pieceIndex) else None
  | String c r =>
      match fuel with
      | O => None
      | S fuel' =>
          let after_dot :=
            if (0 <? numbersSeen)%nat then
              if eqc c "." && (numbersSeen <? 4)%nat then Some r else None
            else Some s in
          match after_dot with
          | None => None
          | Some s' =>
              match s' with
              | String d _ =>
                  if Str.is_digit d then
                    match ipv4_piece None s' with
                    | Some (Some piece, rest) =>
                        let address' :=
                          set_nth address pieceIndex
                            (List.nth pieceIndex address 0 * 256 + piece)%N in
                        let seen := S numbersSeen in
                        ipv4_in_ipv6 fuel' address'
                          (if Nat.eqb seen 2 || Nat.eqb seen 4
                           then S pieceIndex else pieceIndex)
                          seen rest
                    | _ => None
                    end
                  else None
              | EmptyString => None
              end
          end
      end
  end.

(** The main loop.  Every round consumes at least one unit, so a fuel of the
    length of the input is never used up. *)
Fixpoint ipv6_loop (fuel : nat) (address : list N) (pieceIndex : nat)
  (compress : option nat) (s : string) : option (list N * nat * option nat) :=
  match s with
  | EmptyString => Some (address, pieceIndex, compress)
  | String c r =>
      match fuel with
      | O => None
      | S fuel' =>
          if Nat.eqb pieceIndex 8 then None
          else if eqc c ":" then
            match compress with
            | Some _ => None
            | None => ipv6_loop fuel' address (S pieceIndex) (Some (S pieceIndex)) r
            end
          else
            let '(value, length, rest) := take_hex 4 0 0 s in
            match rest with
            | String "." _ =>
                if Nat.eqb length 0 then None
                else if (6 <? pieceIndex)%nat then None
                else match ipv4_in_ipv6 (S (String.length s)) address pieceIndex 0 s with
                     | Some (address', pieceIndex') =>
                         Some (address', pieceIndex', compress)
                     | None => None
                     end
            | String ":" EmptyString => None
            | String ":" rest' =>
                ipv6_loop fuel' (set_nth address pieceIndex value) (S pieceIndex)
                  compress rest'
            | String _ _ => None
            | EmptyString =>
                Some (set_nth address pieceIndex value, S pieceIndex, compress)
            end
      end
  end.

(** The swaps that move the pieces written after [::] to the end. *)
Fixpoint ipv6_swaps (address : list N) (compress pieceIndex swaps : nat) : list N :=
  match pieceIndex, swaps with
  | S i, S k =>
      let a := List.nth pieceIndex address 0%N in
      let b := List.nth (compress + swaps - 1) address 0%N in
      ipv6_swaps (set_nth (set_nth address pieceIndex b) (compress + swaps - 1) a)
        compress i k
  | _, _ => address
  end.

Definition ipv6_parse (input : string) : option (list N) :=
  let zero := List.repeat 0%N 8 in
  let start :=
    match input with
    | String ":" (String ":" r) => Some (1, Some 1, r)
    | String ":" _ => None
    | _ => Some (0, None, input)
    end in
  match start with
  | None => None
  | Some (pieceIndex, compress, s) =>
      match ipv6_loop (S (String.length s)) zero pieceIndex compress s with
      | None => None
      | Some (address, pieceIndex', Some c) =>
          Some (ipv6_swaps address c 7 (pieceIndex' - c))
      | Some (address, pieceIndex', None) =>
          if Nat.eqb pieceIndex' 8 then Some address else None
      end
  end.

(** *** The opaque-host parser *)

Definition c0_control_percent_encode (c : ascii) : string :=
  if (Str.code c <? 32)%N || (126 <? Str.code c)%N
  then Form.flat_map Form.percent (Form.utf8 c)
  else String c EmptyString.

Definition opaque_host_parse (input : string) : option Host :=
  if existsb forbidden_host_code_point input then None
  else match input with
       | EmptyString => Some Empty
       | _ => Some (Opaque (Form.flat_map c0_control_percent_encode input))
       end.

(** *** Domains *)

Definition is_ascii (c : ascii) : bool := (Str.code c <? 128)%N.

Definition has_xn_label (domain : string) : bool :=
  List.existsb (fun label => Str.startsWith (Str.toLowerCase label) "xn--")
    (Str.split "." domain).

Section Parser.

(** Unicode ToASCII with the flags the URL Standard sets when it is not
    strict, on the UTF-8 bytes of a domain. *)
Variable unicode_ToASCII : string -> option string.

(** Domain to ASCII: an empty result or a forbidden domain code point is a
    failure. *)
Definition domain_to_ASCII (domain : string) : option string :=
  let result :=
    if forallb is_ascii domain && negb (has_xn_label domain)
    then Some (Str.toLowerCase domain)
    else unicode_ToASCII domain in
  match result with
  | None => None
  | Some r =>
      if String.eqb r "" then None
      else if existsb forbidden_domain_code_point r then None
      else Some r
  end.

(** The host parser. *)
Definition host_parse (isOpaque : bool) (input : string) : option Host :=
  match input with
  | String "[" inner =>
      if ends_with_unit "]" input
      then option_map IPv6 (ipv6_parse (remove_last inner))
      else None
  | _ =>
      if isOpaque then opaque_host_parse input
      else
        match domain_to_ASCII (percent_decode (Form.flat_map Form.utf8 input)) with
        | None => None
        | Some asciiDomain =>
            if ends_in_a_number asciiDomain
            then option_map IPv4 (ipv4_parse asciiDomain)
            else Some (Domain asciiDomain)
        end
  end.

(** What follows the last [@] of the authority, if there is one. *)
Fixpoint after_last_at (s : string) : option string :=
  match s with
  | EmptyString => None
  | String c r =>
      match after_last_at r with
      | Some t => Some t
      | None => if eqc c "@" then Some r else None
      end
  end.

(** Host state: up to the first [:] that is not inside brackets. *)
Fixpoint break_host (insideBrackets : bool) (s : string) : string * string :=
  match s with
  | EmptyString => (EmptyString, EmptyString)
  | String c r =>
      if eqc c ":" && negb insideBrackets then (EmptyString, s)
      else
        let inside := if eqc c "[" then true
                      else if eqc c "]" then false else insideBrackets in
        let (a, b) := break_host inside r in (String c a, b)
  end.

(** Port state: decimal digits only, and at most 65535. *)
Definition port_ok (buffer : string) : bool :=
  forallb Str.is_digit buffer &&
  match digits_prefix None buffer with
  | Some n => (n <=? 65535)%Z
  | None => true
  end.

Definition authority_end (special : bool) (c : ascii) : bool :=
  eqc c "/" || eqc c "?" || eqc c "#" || (special && eqc c "\").

(** Authority, host and port states, then the rest of the URL. *)
Definition parse_authority (scheme : string) (special : bool) (s : string)
  : option t :=
  let (authority, rest) := break_at (authority_end special) s in
  let '(atSignSeen, hostport) :=
    match after_last_at authority with
    | Some hp => (true, hp)
    | None => (false, authority)
    end in
  if atSignSeen && String.eqb hostport "" then None
  else
    let (buffer, after) := break_host false hostport in
    let '(p, q, f) := split_tail rest in
    match after with
    | String ":" portBuffer =>
        if String.eqb buffer "" then None
        else match host_parse (negb special) buffer with
             | None => None
             | Some h =>
                 if port_ok portBuffer
                 then Some (mk scheme (Some h) portBuffer p q f)
                 else None
             end
    | _ =>
        if special && String.eqb buffer "" then None
        else match host_parse (negb special) buffer with
             | None => None
             | Some h => Some (mk scheme (Some h) "" p q f)
             end
    end.

Definition slash_or_backslash (c : ascii) : bool := eqc c "/" || eqc c "\".

Definition windows_drive_letter (s : string) : bool :=
  match s with
  | String a (String b EmptyString) => Str.is_alpha a && (eqc b ":" || eqc b "|")
  | _ => false
  end.

(** File state, file slash state and file host state. *)
Definition parse_file (rest : string) : option t :=
  let no_host tail :=
    let '(p, q, f) := split_tail tail in
    Some (mk "file" (Some Empty) "" p q f) in
  match rest with
  | String c1 (String c2 r) =>
      if slash_or_backslash c1 && slash_or_backslash c2 then
        let (buffer, tail) :=
          break_at (fun c => slash_or_backslash c || eqc c "?" || eqc c "#") r in
        if windows_drive_letter buffer then no_host r
        else if String.eqb buffer "" then no_host tail
        else match host_parse false buffer with
             | None => None
             | Some h =>
                 let '(p, q, f) := split_tail tail in
                 Some (mk "file"
                         (Some (match h with
                                | Domain name =>
                                    if String.eqb name "localhost" then Empty else h
                                | _ => h
                                end))
                         "" p q f)
             end
      else no_host rest
  | _ => no_host rest
  end.

(** The basic URL parser on [input], no base URL. *)
Definition parse (input : string) : option t :=
  match scan_scheme (preprocess input) with
  | None => None
  | Some (scheme, remaining) =>
      if String.eqb scheme "file" then parse_file remaining
      else if is_special scheme then
        (* special authority slashes and special authority ignore slashes
           states skip every slash and backslash before the authority *)
        parse_authority scheme true (drop_while slash_or_backslash remaining)
      else
        match remaining with
        | String "/" (String "/" r) => parse_authority scheme false r
        | _ =>
            (* path state, or opaque path state: the host stays null *)
            let '(p, q, f) := split_tail remaining in
            Some (mk scheme None "" p q f)
        end
  end.

End Parser.

End URL.

(** ** The outside world and the calls made to it *)

Definition Blob : Type := list Byte.byte.

(** What the worker reads of the [Response] that [fetch(text)] resolves to.
    [content_length] and [content_type] are the results of [headers.get],
    [None] being [null]; [blob] is what [fileResponse.blob()] settles to. *)
Record FetchResponse : Type := {
  ok : bool;
  statusText : string;
  content_length : option string;
  content_type : option string;
  blob : outcome Blob
}.

(** One reply per outbound call.  A Telegram call settles to the parsed JSON
    of the reply ([await response.json()]), or throws when the request or the
    parsing fails.  The last field is what the runtime's Unicode tables
    answer when the URL parser asks for the ASCII form of a domain. *)
Record World : Type := {
  remote : string -> outcome FetchResponse;
  telegram_get : string -> value -> string -> outcome value;
  telegram_post : string -> value -> string -> Blob -> string -> outcome value;
  unicode_ToASCII : string -> option string
}.

(** [isValidUrl] (lines 221-228): [new URL(string)] converts its argument
    with ToString and throws a TypeError exactly when parsing fails. *)
Definition isValidUrl (w : World) (s : value) : bool :=
  match URL.parse (unicode_ToASCII w) (ToString s) with
  | Some _ => true
  | None => false
  end.

Inductive Call : Type :=
| Fetch (url : string)
| ReadBlob
| Get (methodName : string) (chat_id : value) (text : string)
| Post (methodName : string) (chat_id : value) (field : string) (file : Blob)
       (fileName : string).

(** ** The monad of [async] functions: a trace of calls and a completion *)

Definition Prog (A : Type) : Type := list Call * outcome A.

Definition ret {A} (a : A) : Prog A := ([], Normal a).

Definition throw {A} (message : string) : Prog A := ([], Throw message).

Definition lift {A} (o : outcome A) : Prog A := ([], o).

Definition bind {A B} (m : Prog A) (k : A -> Prog B) : Prog B :=
  match m with
  | (tr, Normal a) => let (tr', r) := k a in ((tr ++ tr')%list, r)
  | (tr, Throw e) => (tr, Throw e)
  end.

(** [await] of an outbound call. *)
Definition await {A} (c : Call) (reply : outcome A) : Prog A := ([c], reply).

(** [try { m } catch (error) { handler(error.message) }] *)
Definition try_catch {A} (m : Prog A) (handler : string -> Prog A) : Prog A :=
  match m with
  | (tr, Normal a) => (tr, Normal a)
  | (tr, Throw e) => let (tr', r) := handler e in ((tr ++ tr')%list, r)
  end.

Declare Scope prog_scope.
Delimit Scope prog_scope with prog.
Notation "x <- m ;; k" := (bind m (fun x => k))
  (at level 61, m at next level, right associativity) : prog_scope.
Notation "m ;; k" := (bind m (fun _ => k))
  (at level 61, right associativity) : prog_scope.
Open Scope prog_scope.

Definition trace {A} (p : Prog A) : list Call := fst p.
Definition completion {A} (p : Prog A) : outcome A := snd p.

(** ** The relay pipeline and the upload operations *)

Section Worker.

Variable w : World.

(** [sendPlainText] (lines 214-216); the caller drops the parsed reply. *)
Definition sendPlainText (chatId : value) (text : string) : Prog value :=
  await (Get "sendMessage" chatId text) (telegram_get w "sendMessage" chatId text).

(** The common body of the four upload operations (lines 107-178): one
    multipart POST, then a throw when the reply's [ok] is falsy. *)
Definition upload (methodName field what : string)
  (chatId : value) (fileBlob : Blob) (fileName : string) : Prog unit :=
  result <- await (Post methodName chatId field fileBlob fileName)
                  (telegram_post w methodName chatId field fileBlob fileName) ;;
  isOk <- lift (get_prop result "ok") ;;
  if negb (truthy isOk) then
    description <- lift (get_prop result "description") ;;
    throw ("Failed to send " ++ what ++ ": " ++ ToString description)
  else ret tt.

Definition sendPhoto := upload "sendPhoto" "photo" "photo".
Definition sendVideo := upload "sendVideo" "video" "video".
Definition sendAudio := upload "sendAudio" "audio" "audio".
Definition sendDocument := upload "sendDocument" "document" "document".

(** The operation each branch of the cascade calls. *)
Definition send (kind : UploadKind) : value -> Blob -> string -> Prog unit :=
  match kind with
  | Photo => sendPhoto
  | Video => sendVideo
  | Audio => sendAudio
  | Document => sendDocument
  end.

Definition guidance : string := "Please send a valid URL to download the file.".

Definition too_large : string := "The file is too large to send (maximum: 50 MB).".

Definition size_limit : Z := 50 * 1024 * 1024.

(** [text.split('/').pop() || 'file'] (line 77).  [split] exists on strings
    only; the empty string is falsy. *)
Definition fileName_of (text : value) : outcome string :=
  match text with
  | VStr s =>
      Normal (match Str.pop (Str.split "/" s) with
              | Some (String c r) => String c r
              | _ => "file"
              end)
  | VUndefined => Throw "Cannot read properties of undefined (reading 'split')"
  | VNull => Throw (null_method_error "split")
  | _ => Throw "text.split is not a function"
  end.

(** The body of the [try] block (lines 69-98). *)
Definition relay (chatId text : value) : Prog unit :=
  fileResponse <- await (Fetch (ToString text)) (remote w (ToString text)) ;;
  if negb (ok fileResponse) then
    throw ("Failed to download file: " ++ statusText fileResponse)
  else
    let contentLength := parseInt_header (content_length fileResponse) in
    let contentType := content_type fileResponse in
    fileName <- lift (fileName_of text) ;;
    if number_gt contentLength size_limit then
      sendPlainText chatId too_large ;; ret tt
    else
      fileBlob <- await ReadBlob (blob fileResponse) ;;
      kind <- lift (classify contentType fileName) ;;
      send kind chatId fileBlob fileName.

(** The [catch] clause (lines 99-101). *)
Definition report (chatId : value) (message : string) : Prog unit :=
  sendPlainText chatId ("Error: " ++ message) ;; ret tt.

(** What [onMessage] does once [chatId] and [text] are read (lines 63-101). *)
Definition process (chatId text : value) : Prog unit :=
  if negb (isValidUrl w text) then
    sendPlainText chatId guidance ;; ret tt
  else
    try_catch (relay chatId text) (report chatId).

(** [onMessage] (lines 59-102). *)
Definition onMessage (message : value) : Prog unit :=
  chat <- lift (get_prop message "chat") ;;
  chatId <- lift (get_prop chat "id") ;;
  text <- lift (get_prop message "text") ;;
  process chatId text.

(** [onUpdate] (lines 50-54). *)
Definition onUpdate (update : value) : Prog unit :=
  present <- lift (has_property "message" update) ;;
  if present then
    message <- lift (get_prop update "message") ;;
    onMessage message
  else ret tt.

(** ** The dispatcher (lines 34-45) *)

Variable SECRET : string.

(** The webhook request: the result of
    [headers.get('X-Telegram-Bot-Api-Secret-Token')] ([None] is [null]) and
    what [request.json()] settles to, a SyntaxError when the body is not
    JSON. *)
Record Request : Type := {
  secret_token : option string;
  json : outcome value
}.

Record Response : Type := {
  body : string;
  status : Z
}.

(** What the handler does besides answering: reading the body, and handing
    a task to [event.waitUntil]. *)
Inductive Step : Type :=
| ReadJson
| WaitUntil (task : Prog unit).

(** [header !== SECRET] *)
Definition differs_from_secret (header : option string) : bool :=
  match header with
  | Some h => negb (String.eqb h SECRET)
  | None => true
  end.

Definition handleWebhook (request : Request) : list Step * outcome Response :=
  if differs_from_secret (secret_token request) then
    ([], Normal {| body := "Unauthorized"; status := 403 |})
  else
    match json request with
    | Throw e => ([ReadJson], Throw e)
    | Normal update =>
        ([ReadJson; WaitUntil (onUpdate update)],
         Normal {| body := "Ok"; status := 200 |})
    end.

End Worker.

(** ** The display name as the specification words it

    Used only to compare [fileName_of] with the sentence of the specification
    ("last path segment of the URL, or a fixed fallback if the URL's path
    ends in a separator or is empty"). *)
Definition spec_display_name (u : URL.t) : string :=
  match Str.pop (Str.split "/" (URL.path u)) with
  | Some (String c r) => String c r
  | _ => "file"
  end.

(** ** The failures of the steps inside the [try] block

    [step_error w chatId text e]: in world [w], one of the steps of lines
    69-98 raises an error whose message is [e]. *)
Inductive step_error (w : World) (chatId text : value) : string -> Prop :=
| fetch_rejects e :
    remote w (ToString text) = Throw e ->
    step_error w chatId text e
| status_not_ok resp :
    remote w (ToString text) = Normal resp -> ok resp = false ->
    step_error w chatId text ("Failed to download file: " ++ statusText resp)
| split_fails resp e :
    remote w (ToString text) = Normal resp -> ok resp = true ->
    fileName_of text = Throw e ->
    step_error w chatId text e
| size_notice_fails resp fileName e :
    remote w (ToString text) = Normal resp -> ok resp = true ->
    fileName_of text = Normal fileName ->
    number_gt (parseInt_header (content_length resp)) size_limit = true ->
    telegram_get w "sendMessage" chatId too_large = Throw e ->
    step_error w chatId text e
| blob_fails resp fileName e :
    remote w (ToString text) = Normal resp -> ok resp = true ->
    fileName_of text = Normal fileName ->
    number_gt (parseInt_header (content_length resp)) size_limit = false ->
    blob resp = Throw e ->
    step_error w chatId text e
| classification_fails resp fileName fileBlob e :
    remote w (ToString text) = Normal resp -> ok resp = true ->
    fileName_of text = Normal fileName ->
    number_gt (parseInt_header (content_length resp)) size_limit = false ->
    blob resp = Normal fileBlob ->
    classify (content_type resp) fileName = Throw e ->
    step_error w chatId text e
| upload_fails resp fileName fileBlob kind e :
    remote w (ToString text) = Normal resp -> ok resp = true ->
    fileName_of text = Normal fileName ->
    number_gt (parseInt_header (content_length resp)) size_limit = false ->
    blob resp = Normal fileBlob ->
    classify (content_type resp) fileName = Normal kind ->
    completion (send w kind chatId fileBlob fileName) = Throw e ->
    step_error w chatId text e.

(** ** Sample worlds and requests *)

Definition telegram_ok : value := VObj [("ok", VBool true)].

(** The sample worlds never meet a domain that needs the Unicode tables;
    their answer for one is a failure. *)
Definition ascii_hosts_only : string -> option string := fun _ => None.

(** A world whose remote server answers every GET with [resp] and whose
    Telegram API accepts every call. *)
Definition serving (resp : FetchResponse) : World := {|
  remote := fun _ => Normal resp;
  telegram_get := fun _ _ _ => Normal telegram_ok;
  telegram_post := fun _ _ _ _ _ => Normal telegram_ok;
  unicode_ToASCII := ascii_hosts_only
|}.

(** A world in which every outbound request fails. *)
Definition offline : World := {|
  remote := fun _ => Throw "Network connection lost.";
  telegram_get := fun _ _ _ => Throw "Network connection lost.";
  telegram_post := fun _ _ _ _ _ => Throw "Network connection lost.";
  unicode_ToASCII := ascii_hosts_only
|}.

Definition response_200 (length type : option string) : FetchResponse := {|
  ok := true;
  statusText := "OK";
  content_length := length;
  content_type := type;
  blob := Normal [Byte.x00; Byte.x01]
|}.

Definition chat_42 : value := VNum "42".

(** A Telegram message that carries no [text] (a sticker, say). *)
Definition message_without_text : value :=
  VObj [("message_id", VNum "7"); ("chat", VObj [("id", chat_42)])].

(** ** The Telegram API URL (lines 254-260) *)

(** [apiUrl] (lines 254-260).  [params] is [null] or an object literal, whose
    values the URLSearchParams constructor converts with ToString; an object
    is truthy even when empty. *)
Definition apiUrl (TOKEN methodName : string)
  (params : option (list (string * value))) : string :=
  let query :=
    match params with
    | Some props =>
        "?" ++ Form.serialize (List.map (fun p => (fst p, ToString (snd p))) props)
    | None => ""
    end in
  "https://api.telegram.org/bot" ++ TOKEN ++ "/" ++ methodName ++ query.

(** The URL behind each call to the Telegram API: [sendPlainText] passes
    [{ chat_id: chatId, text }] (line 215), the upload operations pass no
    parameters (lines 112, 131, 150, 169). *)
Definition call_url (TOKEN : string) (c : Call) : option string :=
  match c with
  | Get methodName chat_id text =>
      Some (apiUrl TOKEN methodName
              (Some [("chat_id", chat_id); ("text", VStr text)]))
  | Post methodName _ _ _ _ => Some (apiUrl TOKEN methodName None)
  | Fetch _ | ReadBlob => None
  end.

(** ** [JSON.stringify(value, null, 2)] *)

Module JSON.

Definition quotation_mark : string := String (ascii_of_N 34) "".
Definition line_feed : string := String (ascii_of_N 10) "".

Definition hex_lower (n : N) : ascii :=
  if (n <? 10)%N then ascii_of_N (48 + n) else ascii_of_N (87 + n).

(** QuoteJSONString, one code unit. *)
Definition quote_unit (c : ascii) : string :=
  let n := Str.code c in
  if N.eqb n 8 then "\b"
  else if N.eqb n 9 then "\t"
  else if N.eqb n 10 then "\n"
  else if N.eqb n 12 then "\f"
  else if N.eqb n 13 then "\r"
  else if N.eqb n 34 then "\" ++ quotation_mark
  else if N.eqb n 92 then "\\"
  else if (n <? 32)%N then
    "\u00" ++ String (hex_lower (n / 16)) (String (hex_lower (n mod 16)) "")
  else String c "".

Definition quote (s : string) : string :=
  quotation_mark ++ Form.flat_map quote_unit s ++ quotation_mark.

Definition not_finite (rendering : string) : bool :=
  String.eqb rendering "NaN" || String.eqb rendering "Infinity"
  || String.eqb rendering "-Infinity".

(** SerializeJSONProperty with a gap of two spaces; [None] is [undefined].
    The properties of an object are taken in their enumeration order. *)
Fixpoint serialize (indent : string) (v : value) : option string :=
  let stepback := indent in
  let indent := indent ++ "  " in
  let separator := "," ++ line_feed ++ indent in
  match v with
  | VUndefined => None
  | VNull => Some "null"
  | VBool true => Some "true"
  | VBool false => Some "false"
  | VNum rendering => Some (if not_finite rendering then "null" else rendering)
  | VStr s => Some (quote s)
  | VArr items =>
      let partial :=
        List.map (fun x => match serialize indent x with
                           | Some t => t
                           | None => "null"
                           end) items in
      match partial with
      | [] => Some "[]"
      | _ => Some ("[" ++ line_feed ++ indent ++ String.concat separator partial
                   ++ line_feed ++ stepback ++ "]")
      end
  | VObj props =>
      let partial :=
        List.flat_map (fun p => match serialize indent (snd p) with
                                | Some t => [quote (fst p) ++ ": " ++ t]
                                | None => []
                                end) props in
      match partial with
      | [] => Some "{}"
      | _ => Some ("{" ++ line_feed ++ indent ++ String.concat separator partial
                   ++ line_feed ++ stepback ++ "}")
      end
  end.

(** [`${JSON.stringify(value, null, 2)}`] *)
Definition stringify (v : value) : string :=
  match serialize "" v with
  | Some t => t
  | None => "undefined"
  end.

End JSON.

(** ** The administrative endpoints and the listener (lines 17-29, 183-209) *)

(** What the listener reads of [new URL(event.request.url)]. *)
Record RequestUrl : Type := {
  protocol : string;
  hostname : string;
  pathname : string
}.

Record FetchEvent : Type := {
  request_url : RequestUrl;
  request : Request
}.

(** What one event leads to: the steps of the webhook handler, the calls of
    an administrative handler, and the response. *)
Record Served : Type := {
  steps : list Step;
  calls : list Call;
  answer : outcome Response
}.

Definition WEBHOOK : string := "/endpoint".

Section Listener.

Variable TOKEN : string.
Variable SECRET : string.
Variable w : World.

(** What [(await fetch(url)).json()] settles to for a URL of the Telegram
    API. *)
Variable api : string -> outcome value.

(** [setWebhook] (lines 183-196) *)
Definition setWebhook (requestUrl : RequestUrl) (suffix secret : string)
  : Prog Response :=
  let webhookUrl := protocol requestUrl ++ "//" ++ hostname requestUrl ++ suffix in
  let url := apiUrl TOKEN "setWebhook"
               (Some [("url", VStr webhookUrl); ("secret_token", VStr secret)]) in
  result <- await (Fetch url) (api url) ;;
  isOk <- lift (get_prop result "ok") ;;
  if truthy isOk then
    ret {| body := "Webhook registered successfully!"; status := 200 |}
  else
    ret {| body := "Failed to register webhook: " ++ JSON.stringify result;
           status := 500 |}.

(** [unregisterWebhook] (lines 201-209) *)
Definition unregisterWebhook : Prog Response :=
  let url := apiUrl TOKEN "setWebhook" (Some [("url", VStr "")]) in
  result <- await (Fetch url) (api url) ;;
  isOk <- lift (get_prop result "ok") ;;
  if truthy isOk then
    ret {| body := "Webhook unregistered successfully!"; status := 200 |}
  else
    ret {| body := "Failed to unregister webhook: " ++ JSON.stringify result;
           status := 500 |}.

(** The [fetch] listener (lines 17-29). *)
Definition listener (event : FetchEvent) : Served :=
  let url := request_url event in
  if String.eqb (pathname url) WEBHOOK then
    let (s, r) := handleWebhook w SECRET (request event) in
    {| steps := s; calls := []; answer := r |}
  else if String.eqb (pathname url) "/setwebhook" then
    let (c, r) := setWebhook url WEBHOOK SECRET in
    {| steps := []; calls := c; answer := r |}
  else if String.eqb (pathname url) "/unregisterwebhook" then
    let (c, r) := unregisterWebhook in
    {| steps := []; calls := c; answer := r |}
  else
    {| steps := []; calls := [];
       answer := Normal {| body := "No handler for this request"; status := 200 |} |}.

End Listener.

(** ** Reading a trace *)

(** The method and the form field of each upload operation (lines 110-112,
    129-131, 148-150, 167-169). *)
Definition method_of (kind : UploadKind) : string :=
  match kind with
  | Photo => "sendPhoto"
  | Video => "sendVideo"
  | Audio => "sendAudio"
  | Document => "sendDocument"
  end.

Definition field_of (kind : UploadKind) : string :=
  match kind with
  | Photo => "photo"
  | Video => "video"
  | Audio => "audio"
  | Document => "document"
  end.

(** The chat a call to the Telegram API is addressed to. *)
Definition chat_of (c : Call) : option value :=
  match c with
  | Get _ chat_id _ => Some chat_id
  | Post _ chat_id _ _ _ => Some chat_id
  | Fetch _ | ReadBlob => None
  end.

Definition is_post (c : Call) : bool :=
  match c with Post _ _ _ _ _ => true | _ => false end.

Definition is_fetch (c : Call) : bool :=
  match c with Fetch _ => true | _ => false end.

Definition is_read (c : Call) : bool :=
  match c with ReadBlob => true | _ => false end.

(** Two lists of extensions of which no dotted member ends in a dotted
    member of the other, up to letter case. *)
Definition never_overlap (A B : list string) : bool :=
  List.forallb (fun a =>
    List.forallb (fun b =>
      negb (Str.test_anchored_end_i ("." ++ a) ("." ++ b)) &&
      negb (Str.test_anchored_end_i ("." ++ b) ("." ++ a))) B) A.

(** A sample delivery of the platform: a text message from chat 42. *)
Definition update_with (text : string) : value :=
  VObj [("update_id", VNum "1");
        ("message", VObj [("message_id", VNum "7");
                          ("chat", VObj [("id", chat_42)]);
                          ("text", VStr text)])].

(** * Properties *)

(** ** Strings *)

Lemma length_app (a b : string) :
  String.length (a ++ b) = String.length a + String.length b.
Proof.
  induction a as [|c a IH]; simpl; [reflexivity | now rewrite IH].
Qed.

Lemma app_empty_r (a : string) : a ++ "" = a.
Proof.
  induction a as [|c a IH]; simpl; [reflexivity | now rewrite IH].
Qed.

Lemma app_assoc (a b c : string) : (a ++ b) ++ c = a ++ (b ++ c).
Proof.
  induction a as [|x a IH]; simpl; [reflexivity | now rewrite IH].
Qed.

Lemma map_app (f : ascii -> ascii) (a b : string) :
  Str.map f (a ++ b) = Str.map f a ++ Str.map f b.
Proof.
  induction a as [|c a IH]; simpl; [reflexivity | now rewrite IH].
Qed.

Lemma map_length (f : ascii -> ascii) (a : string) :
  String.length (Str.map f a) = String.length a.
Proof.
  induction a as [|c a IH]; simpl; [reflexivity | now rewrite IH].
Qed.

Lemma startsWith_app (p r : string) : Str.startsWith (p ++ r) p = true.
Proof.
  induction p as [|c p IH]; simpl; [reflexivity |].
  now rewrite Ascii.eqb_refl, IH.
Qed.

Lemma startsWith_inv (s p : string) :
  Str.startsWith s p = true -> exists r, s = p ++ r.
Proof.
  revert s; induction p as [|c p IH]; intros s H.
  - now exists s.
  - destruct s as [|d s]; simpl in H; [discriminate |].
    apply andb_true_iff in H as [Hc Hs].
    apply Ascii.eqb_eq in Hc; subst d.
    destruct (IH _ Hs) as [r ->]. now exists r.
Qed.

(** Lower-casing forgets what the case folding of [/i] forgets. *)
Lemma lower_upper_unit (c : ascii) :
  Str.lower_unit (Str.upper_unit c) = Str.lower_unit c.
Proof.
  destruct c as [[] [] [] [] [] [] [] []]; reflexivity.
Qed.

Lemma lower_map_upper (s : string) :
  Str.toLowerCase (Str.map Str.upper_unit s) = Str.toLowerCase s.
Proof.
  induction s as [|c s IH]; simpl; [reflexivity |].
  unfold Str.toLowerCase in *; simpl.
  now rewrite lower_upper_unit, IH.
Qed.

Lemma eqb_i_lower (pat e : string) :
  Str.eqb_i pat e = true -> Str.toLowerCase e = Str.toLowerCase pat.
Proof.
  unfold Str.eqb_i; intros H; apply String.eqb_eq in H.
  now rewrite <- (lower_map_upper e), <- H, lower_map_upper.
Qed.

Lemma eqb_i_length (pat e : string) :
  Str.eqb_i pat e = true -> String.length pat = String.length e.
Proof.
  unfold Str.eqb_i; intros H; apply String.eqb_eq in H.
  now rewrite <- (map_length Str.upper_unit pat), H, map_length.
Qed.

(** The anchored test succeeds exactly on the inputs that end in a folded
    copy of the pattern. *)
Lemma test_anchored_end_i_intro (pat pre suf : string) :
  Str.eqb_i pat suf = true -> Str.test_anchored_end_i pat (pre ++ suf) = true.
Proof.
  intros H; induction pre as [|c pre IH]; simpl.
  - destruct suf; simpl; now rewrite H.
  - rewrite IH; apply orb_true_r.
Qed.

Lemma test_anchored_end_i_inv (pat s : string) :
  Str.test_anchored_end_i pat s = true ->
  exists pre suf, s = pre ++ suf /\ Str.eqb_i pat suf = true.
Proof.
  induction s as [|c s IH]; simpl; intros H.
  - apply orb_true_iff in H as [H | H]; [| discriminate].
    now exists "", "".
  - apply orb_true_iff in H as [H | H].
    + now exists "", (String c s).
    + destruct (IH H) as (pre & suf & -> & E).
      now exists (String c pre), suf.
Qed.

(** Two ways of cutting one string: the shorter tail ends the longer one. *)
Lemma app_suffix_align (a pre b pre' : string) :
  pre ++ a = pre' ++ b -> String.length a <= String.length b ->
  exists x, b = x ++ a.
Proof.
  revert pre'; induction pre as [|c pre IH]; intros pre' E L.
  - simpl in E; subst a. rewrite length_app in L.
    destruct pre'; simpl in *; [now exists "" | lia].
  - destruct pre' as [|d pre']; simpl in E.
    + exists (String c pre). now rewrite <- E.
    + injection E as _ E. now apply (IH pre').
Qed.

Lemma test_anchored_end_i_miss (pat suf pre : string) :
  String.length suf <= String.length pat ->
  (forall x, String.length x + String.length suf = String.length pat ->
             Str.eqb_i pat (x ++ suf) = false) ->
  Str.test_anchored_end_i pat (pre ++ suf) = false.
Proof.
  intros L Miss.
  destruct (Str.test_anchored_end_i pat (pre ++ suf)) eqn:T; [| reflexivity].
  apply test_anchored_end_i_inv in T as (pre' & suf' & E & Hit).
  pose proof (eqb_i_length _ _ Hit) as Len.
  destruct (app_suffix_align suf pre suf' pre' E) as [x ->]; [lia |].
  rewrite Miss in Hit; [discriminate |].
  rewrite length_app in Len; lia.
Qed.

(** ** Classification *)

Lemma contentType_startsWith_present (ct prefix : string) :
  contentType_startsWith (Some ct) prefix = Normal (Str.startsWith ct prefix).
Proof. reflexivity. Qed.

(** With a declared media type the cascade always ends in a kind. *)
Lemma classify_present_total (ct fileName : string) :
  exists kind, classify (Some ct) fileName = Normal kind.
Proof.
  unfold classify; cbn [bind_outcome contentType_startsWith].
  destruct (_ || _); [now eexists |].
  destruct (_ || _); [now eexists |].
  destruct (_ || _); now eexists.
Qed.

(** Document is what is left when none of the six tests succeeds. *)
Lemma classify_document (ct fileName : string) :
  Str.startsWith ct "image/" = false ->
  Str.startsWith ct "video/" = false ->
  Str.startsWith ct "audio/" = false ->
  isImageExtension (Str.toLowerCase fileName) = false ->
  isVideoExtension (Str.toLowerCase fileName) = false ->
  isAudioExtension (Str.toLowerCase fileName) = false ->
  classify (Some ct) fileName = Normal Document.
Proof.
  intros Hi Hv Ha Ei Ev Ea.
  unfold classify; cbn [bind_outcome contentType_startsWith].
  now rewrite Hi, Hv, Ha, Ei, Ev, Ea.
Qed.

(** C1 (as amended).  The cascade pairs each media-type test with the
    extension test of the same kind and tries the kinds in the order Photo,
    Video, Audio.  A declared type [image/...] gives Photo whatever the file
    name; [video/...] gives Video unless the name has an image extension,
    which gives Photo; [audio/...] gives Audio unless the name has an image
    extension (Photo) or a video extension (Video). *)
Theorem classify_media_type_cascade (subtype fileName : string) :
  let name := Str.toLowerCase fileName in
  classify (Some ("image/" ++ subtype)) fileName = Normal Photo /\
  classify (Some ("video/" ++ subtype)) fileName =
    Normal (if isImageExtension name then Photo else Video) /\
  classify (Some ("audio/" ++ subtype)) fileName =
    Normal (if isImageExtension name then Photo
            else if isVideoExtension name then Video else Audio).
Proof.
  intros name. unfold classify. fold name.
  cbn [bind_outcome contentType_startsWith].
  change (Str.startsWith ("image/" ++ subtype) "image/") with true.
  change (Str.startsWith ("video/" ++ subtype) "image/") with false.
  change (Str.startsWith ("video/" ++ subtype) "video/") with true.
  change (Str.startsWith ("audio/" ++ subtype) "image/") with false.
  change (Str.startsWith ("audio/" ++ subtype) "video/") with false.
  change (Str.startsWith ("audio/" ++ subtype) "audio/") with true.
  cbn [orb].
  repeat split.
  - now destruct (isImageExtension name).
  - destruct (isImageExtension name); [reflexivity |].
    now destruct (isVideoExtension name).
Qed.

(** C1, counterexample.  The declared type is [video/mp4], the name ends in
    [.jpg]: the image-extension test of the first line of the cascade comes
    before the [video/] test, and the resource is sent as a photo. *)
Lemma classify_video_type_image_name :
  Str.startsWith "video/mp4" "video/" = true /\
  classify (Some "video/mp4") "clip.jpg" = Normal Photo /\
  Normal Photo <> Normal Video.
Proof.
  repeat split; discriminate.
Qed.

(** C2.  Without a declared media type ([headers.get] returned [null]) the
    first line of the cascade raises a TypeError before any extension is
    looked at: no kind is assigned, whatever the file name. *)
Theorem classify_null_content_type (fileName : string) :
  classify None fileName = Throw "Cannot read properties of null (reading 'startsWith')".
Proof. reflexivity. Qed.

(** *** The extension tests on names that end in [.jpg], [.mp4], [.mp3] *)

Ltac extension_miss :=
  apply test_anchored_end_i_miss;
  [ simpl; lia
  | let x := fresh "x" in
    let Hx := fresh "Hx" in
    let E := fresh "E" in
    intros x Hx;
    destruct x as [|? [|? ?]]; simpl in Hx; try lia;
    first
      [ reflexivity
      | destruct (Str.eqb_i _ _) eqn:E; [| reflexivity];
        unfold Str.eqb_i in E; apply String.eqb_eq in E;
        cbn in E; congruence ] ].

Ltac extension_tests :=
  unfold isImageExtension, isVideoExtension, isAudioExtension,
    Str.test_extension;
  cbn [List.existsb String.append].

Ltac extension_none :=
  extension_tests; repeat (apply orb_false_intro); try reflexivity; extension_miss.

Ltac extension_some :=
  extension_tests;
  repeat (apply orb_true_intro;
          first [ left; apply test_anchored_end_i_intro; reflexivity | right ]).

Lemma image_extension_jpg (pre : string) : isImageExtension (pre ++ ".jpg") = true.
Proof. extension_some. Qed.

Lemma image_extension_mp4 (pre : string) : isImageExtension (pre ++ ".mp4") = false.
Proof. extension_none. Qed.

Lemma video_extension_mp4 (pre : string) : isVideoExtension (pre ++ ".mp4") = true.
Proof. extension_some. Qed.

Lemma image_extension_mp3 (pre : string) : isImageExtension (pre ++ ".mp3") = false.
Proof. extension_none. Qed.

Lemma video_extension_mp3 (pre : string) : isVideoExtension (pre ++ ".mp3") = false.
Proof. extension_none. Qed.

Lemma audio_extension_mp3 (pre : string) : isAudioExtension (pre ++ ".mp3") = true.
Proof. extension_some. Qed.

Lemma toLowerCase_ext (stem pat ext : string) :
  Str.eqb_i pat ext = true ->
  Str.toLowerCase (stem ++ ext) = Str.toLowerCase stem ++ Str.toLowerCase pat.
Proof.
  intros H. unfold Str.toLowerCase at 1. rewrite map_app.
  now rewrite <- (eqb_i_lower _ _ H).
Qed.

(** The part of the extension fallback that the code does deliver: when a
    media type is declared and is none of [image/], [video/], [audio/], a
    name that ends in [.jpg], [.mp4] or [.mp3], in any letter case, is
    classified Photo, Video or Audio. *)
Lemma extension_fallback_declared (ct stem ext : string) :
  Str.startsWith ct "image/" = false ->
  Str.startsWith ct "video/" = false ->
  Str.startsWith ct "audio/" = false ->
  (Str.eqb_i ".jpg" ext = true -> classify (Some ct) (stem ++ ext) = Normal Photo) /\
  (Str.eqb_i ".mp4" ext = true -> classify (Some ct) (stem ++ ext) = Normal Video) /\
  (Str.eqb_i ".mp3" ext = true -> classify (Some ct) (stem ++ ext) = Normal Audio).
Proof.
  intros Hi Hv Ha.
  repeat split; intros E;
    unfold classify; cbn [bind_outcome contentType_startsWith];
    rewrite ?Hi, ?Hv, ?Ha, (toLowerCase_ext stem _ ext E);
    change (Str.toLowerCase ".jpg") with ".jpg";
    change (Str.toLowerCase ".mp4") with ".mp4";
    change (Str.toLowerCase ".mp3") with ".mp3".
  - now rewrite image_extension_jpg.
  - now rewrite image_extension_mp4, video_extension_mp4.
  - now rewrite image_extension_mp3, video_extension_mp3, audio_extension_mp3.
Qed.

(** ** The relay pipeline *)

Lemma bind_lift_normal {A B} (a : A) (k : A -> Prog B) :
  bind (lift (Normal a)) k = k a.
Proof. unfold bind, lift. now destruct (k a). Qed.

(** A chat message followed by [return]: one call, and the completion of
    that call. *)
Lemma notice_run (w : World) (chatId : value) (text : string) :
  (sendPlainText w chatId text ;; ret tt) =
  ([Get "sendMessage" chatId text],
   match telegram_get w "sendMessage" chatId text with
   | Normal _ => Normal tt
   | Throw e => Throw e
   end).
Proof.
  unfold sendPlainText, await, bind, ret.
  now destruct (telegram_get w "sendMessage" chatId text).
Qed.

Lemma process_invalid (w : World) (chatId text : value) :
  isValidUrl w text = false ->
  process w chatId text = (sendPlainText w chatId guidance ;; ret tt).
Proof. intros H; unfold process; now rewrite H. Qed.

Lemma process_valid (w : World) (chatId text : value) :
  isValidUrl w text = true ->
  process w chatId text = try_catch (relay w chatId text) (report w chatId).
Proof. intros H; unfold process; now rewrite H. Qed.

(** The calls of a [try] block stay in front of those of its handler. *)
Lemma trace_try_catch {A} (m : Prog A) (handler : string -> Prog A) :
  exists rest, trace (try_catch m handler) = (trace m ++ rest)%list.
Proof.
  destruct m as [tr [a | e]]; cbn.
  - exists []. now rewrite app_nil_r.
  - destruct (handler e) as [tr' r]. now exists tr'.
Qed.

(** The [try] block on a text that is a string, after a successful fetch. *)
Lemma relay_fetched (w : World) (chatId : value) (url : string)
  (resp : FetchResponse) :
  remote w url = Normal resp -> ok resp = true ->
  relay w chatId (VStr url) =
  let fileName :=
    match Str.pop (Str.split "/" url) with
    | Some (String c r) => String c r
    | _ => "file"
    end in
  if number_gt (parseInt_header (content_length resp)) size_limit then
    ([Fetch url; Get "sendMessage" chatId too_large],
     match telegram_get w "sendMessage" chatId too_large with
     | Normal _ => Normal tt
     | Throw e => Throw e
     end)
  else
    match blob resp with
    | Throw e => ([Fetch url; ReadBlob], Throw e)
    | Normal fileBlob =>
        match classify (content_type resp) fileName with
        | Throw e => ([Fetch url; ReadBlob], Throw e)
        | Normal kind =>
            (Fetch url :: ReadBlob
               :: trace (send w kind chatId fileBlob fileName),
             completion (send w kind chatId fileBlob fileName))
        end
    end.
Proof.
  intros Hf Hok. unfold relay. cbn [ToString fileName_of].
  unfold await at 1. unfold bind at 1. rewrite Hf, Hok. cbn [negb].
  unfold lift at 1, bind at 1. cbn [app].
  destruct (number_gt _ _).
  - rewrite notice_run. reflexivity.
  - unfold await, lift, bind at 1.
    destruct (blob resp) as [fileBlob | e]; [| reflexivity].
    unfold bind at 1.
    destruct (classify _ _) as [kind | e]; [| reflexivity].
    destruct (send w kind chatId fileBlob _) as [tr r]. reflexivity.
Qed.

(** C3.  A response without a Content-Type header, whatever the extension of
    the name (so also [.mp4], [.jpg], [.mp3]): after the body is read, the
    cascade throws on [contentType.startsWith], nothing is uploaded, and the
    chat is sent the message of the TypeError. *)
Theorem relay_without_content_type (w : World) (chatId : value) (url : string)
  (resp : FetchResponse) (fileBlob : Blob) :
  isValidUrl w (VStr url) = true ->
  remote w url = Normal resp ->
  ok resp = true ->
  number_gt (parseInt_header (content_length resp)) size_limit = false ->
  blob resp = Normal fileBlob ->
  content_type resp = None ->
  trace (process w chatId (VStr url)) =
  [Fetch url; ReadBlob;
   Get "sendMessage" chatId
     "Error: Cannot read properties of null (reading 'startsWith')"].
Proof.
  intros Hv Hf Hok Hsize Hblob Hct.
  rewrite (process_valid _ _ _ Hv), (relay_fetched _ _ _ _ Hf Hok).
  cbv zeta. rewrite Hsize, Hblob, Hct.
  change (classify None ?n) with
    (@Throw UploadKind "Cannot read properties of null (reading 'startsWith')").
  unfold try_catch, report. rewrite notice_run. reflexivity.
Qed.

Lemma relay_without_content_type_witness :
  trace (process (serving (response_200 None None)) chat_42
           (VStr "https://example.com/clip.MP4")) =
  [Fetch "https://example.com/clip.MP4"; ReadBlob;
   Get "sendMessage" chat_42
     "Error: Cannot read properties of null (reading 'startsWith')"].
Proof.
  apply (relay_without_content_type (serving (response_200 None None)) chat_42
           "https://example.com/clip.MP4" (response_200 None None)
           [Byte.x00; Byte.x01]); reflexivity.
Defined.

(** C4.  After a successful fetch: when the declared content-length, as
    [parseInt] reads it, exceeds 50 * 1024 * 1024, the call that follows the
    fetch is the chat message with the literal text, the body is never read
    and nothing is uploaded (the only call that can follow is the catch-all's
    report when sending that message itself failed); when the header is
    absent or [parseInt] yields NaN, the check raises nothing and the
    pipeline goes on to read the body. *)
Theorem size_gate (w : World) (chatId : value) (url : string)
  (resp : FetchResponse) :
  isValidUrl w (VStr url) = true ->
  remote w url = Normal resp ->
  ok resp = true ->
  (forall n, parseInt_header (content_length resp) = Some n ->
             (50 * 1024 * 1024 < n)%Z ->
     exists rest,
       trace (process w chatId (VStr url)) =
         Fetch url :: Get "sendMessage" chatId too_large :: rest /\
       (forall c, In c rest ->
                  exists e, c = Get "sendMessage" chatId ("Error: " ++ e)) /\
       ~ In ReadBlob (trace (process w chatId (VStr url))) /\
       (forall reply,
          telegram_get w "sendMessage" chatId too_large = Normal reply ->
          process w chatId (VStr url) =
            ([Fetch url; Get "sendMessage" chatId too_large], Normal tt))) /\
  (content_length resp = None \/ parseInt_header (content_length resp) = None ->
     exists rest,
       trace (process w chatId (VStr url)) = Fetch url :: ReadBlob :: rest).
Proof.
  intros Hv Hf Hok.
  rewrite (process_valid _ _ _ Hv), (relay_fetched _ _ _ _ Hf Hok). cbv zeta.
  split.
  - intros n Hn Hgt.
    assert (Hbig : number_gt (parseInt_header (content_length resp)) size_limit
                   = true).
    { rewrite Hn. unfold number_gt, size_limit. apply Z.ltb_lt. exact Hgt. }
    rewrite Hbig. unfold try_catch, report.
    destruct (telegram_get w "sendMessage" chatId too_large) as [reply | e] eqn:Hs.
    + exists []. cbn. repeat split.
      * intros c [].
      * intros [H | [H | []]]; discriminate.
    + rewrite notice_run. cbn.
      exists [Get "sendMessage" chatId ("Error: " ++ e)]. repeat split.
      * intros c [<- | []]. now exists e.
      * intros [H | [H | [H | []]]]; discriminate.
      * intros reply H; discriminate.
  - intros Habsent.
    assert (Hnan : parseInt_header (content_length resp) = None).
    { destruct Habsent as [H | H]; [now rewrite H | exact H]. }
    rewrite Hnan. cbn [number_gt].
    destruct (blob resp) as [fileBlob | e];
      [destruct (classify _ _) as [kind | e'] |];
      match goal with
      | |- context [try_catch ?m ?h] =>
          destruct (trace_try_catch m h) as [rest ->]
      end;
      cbn [trace fst app]; eexists; reflexivity.
Qed.

Lemma size_gate_witness :
  process (serving (response_200 (Some "60000000") (Some "video/mp4"))) chat_42
    (VStr "https://example.com/film.mp4") =
  ([Fetch "https://example.com/film.mp4";
    Get "sendMessage" chat_42 "The file is too large to send (maximum: 50 MB)."],
   Normal tt).
Proof.
  destruct (size_gate (serving (response_200 (Some "60000000") (Some "video/mp4")))
              chat_42 "https://example.com/film.mp4"
              (response_200 (Some "60000000") (Some "video/mp4"))
              eq_refl eq_refl eq_refl) as [Over _].
  destruct (Over 60000000%Z eq_refl ltac:(lia)) as (rest & _ & _ & _ & Run).
  exact (Run telegram_ok eq_refl).
Defined.

(** ** URL validation *)

Ltac break_match :=
  repeat match goal with
         | H : context [match ?x with _ => _ end] |- _ => destruct x eqn:?
         | H : Some _ = Some _ |- _ => injection H as H
         | H : None = Some _ |- _ => discriminate H
         end.

Lemma scan_scheme_nonempty (s scheme remaining : string) :
  URL.scan_scheme s = Some (scheme, remaining) -> scheme <> "".
Proof.
  unfold URL.scan_scheme. intros H. break_match.
  subst scheme. discriminate.
Qed.

(** *** The fuel of the IPv6 parser is never used up *)

Lemma take_hex_length (max : nat) (value : N) (length : nat) (s : string)
  (v : N) (l : nat) (rest : string) :
  URL.take_hex max value length s = (v, l, rest) ->
  String.length rest <= String.length s.
Proof.
  revert value length s.
  induction max as [|m IH]; intros value length s H; cbn in H.
  - injection H as _ _ <-. lia.
  - destruct s as [|c r]; [injection H as _ _ <-; cbn; lia |].
    destruct (Form.hex_value c).
    + apply IH in H. cbn. lia.
    + injection H as _ _ <-. lia.
Qed.

Lemma ipv4_piece_length (s : string) (piece q : option N) (rest : string) :
  URL.ipv4_piece piece s = Some (q, rest) ->
  String.length rest <= String.length s.
Proof.
  revert piece. induction s as [|c r IH]; intros piece H; cbn in H.
  - injection H as _ <-. lia.
  - destruct (Str.is_digit c).
    + destruct piece as [[|p] |].
      * discriminate.
      * destruct (_ <? _)%N; [discriminate |]. apply IH in H. cbn. lia.
      * apply IH in H. cbn. lia.
    + injection H as _ <-. lia.
Qed.

Lemma ipv4_in_ipv6_fuel (fuel fuel' : nat) (address : list N)
  (pieceIndex numbersSeen : nat) (s : string) :
  String.length s < fuel -> String.length s < fuel' ->
  URL.ipv4_in_ipv6 fuel address pieceIndex numbersSeen s =
  URL.ipv4_in_ipv6 fuel' address pieceIndex numbersSeen s.
Proof.
  revert fuel' address pieceIndex numbersSeen s.
  induction fuel as [|f IH]; intros fuel' address pieceIndex numbersSeen s L L';
    [lia |].
  destruct s as [|c r]; [now destruct fuel' |].
  destruct fuel' as [|f']; [lia |].
  cbn [URL.ipv4_in_ipv6]. cbn [String.length] in L, L'.
  assert (Step : forall s',
            String.length s' <= S (String.length r) ->
            match s' with
            | String d _ =>
                if Str.is_digit d then
                  match URL.ipv4_piece None s' with
                  | Some (Some piece, rest) =>
                      URL.ipv4_in_ipv6 f
                        (URL.set_nth address pieceIndex
                           (nth pieceIndex address 0 * 256 + piece)%N)
                        (if Nat.eqb (S numbersSeen) 2 || Nat.eqb (S numbersSeen) 4
                         then S pieceIndex else pieceIndex)
                        (S numbersSeen) rest
                  | _ => None
                  end
                else None
            | EmptyString => None
            end =
            match s' with
            | String d _ =>
                if Str.is_digit d then
                  match URL.ipv4_piece None s' with
                  | Some (Some piece, rest) =>
                      URL.ipv4_in_ipv6 f'
                        (URL.set_nth address pieceIndex
                           (nth pieceIndex address 0 * 256 + piece)%N)
                        (if Nat.eqb (S numbersSeen) 2 || Nat.eqb (S numbersSeen) 4
                         then S pieceIndex else pieceIndex)
                        (S numbersSeen) rest
                  | _ => None
                  end
                else None
            | EmptyString => None
            end).
  { intros s' Ls'. destruct s' as [|d t]; [reflexivity |].
    destruct (Str.is_digit d) eqn:D; [| reflexivity].
    destruct (URL.ipv4_piece None (String d t)) as [[[piece |] rest] |] eqn:P;
      try reflexivity.
    cbn [URL.ipv4_piece] in P. rewrite D in P.
    apply ipv4_piece_length in P. cbn [String.length] in Ls'.
    apply IH; lia. }
  destruct (0 <? numbersSeen)%nat.
  - destruct (URL.eqc c "." && (numbersSeen <? 4)%nat); [| reflexivity].
    apply Step. lia.
  - apply (Step (String c r)). cbn. lia.
Qed.

Lemma ipv6_loop_fuel (fuel fuel' : nat) (address : list N) (pieceIndex : nat)
  (compress : option nat) (s : string) :
  String.length s < fuel -> String.length s < fuel' ->
  URL.ipv6_loop fuel address pieceIndex compress s =
  URL.ipv6_loop fuel' address pieceIndex compress s.
Proof.
  revert fuel' address pieceIndex compress s.
  induction fuel as [|f IH]; intros fuel' address pieceIndex compress s L L';
    [lia |].
  destruct s as [|c r]; [now destruct fuel' |].
  destruct fuel' as [|f']; [lia |].
  cbn [URL.ipv6_loop]. cbn [String.length] in L, L'.
  destruct (Nat.eqb pieceIndex 8); [reflexivity |].
  destruct (URL.eqc c ":").
  - destruct compress; [reflexivity |]. apply IH; lia.
  - destruct (URL.take_hex 4 0 0 (String c r)) as [[value length] rest] eqn:T.
    apply take_hex_length in T. cbn [String.length] in T.
    destruct rest as [|d rest']; [reflexivity |].
    cbn [String.length] in T.
    destruct d as [[] [] [] [] [] [] [] []]; try reflexivity.
    destruct rest' as [|e rest'']; [reflexivity |].
    apply IH; lia.
Qed.

Lemma parse_authority_scheme (toASCII : string -> option string)
  (scheme : string) (special : bool) (s : string) (u : URL.t) :
  URL.parse_authority toASCII scheme special s = Some u -> URL.scheme u = scheme.
Proof.
  unfold URL.parse_authority. intros H. break_match; now subst u.
Qed.

Lemma parse_file_scheme (toASCII : string -> option string) (rest : string)
  (u : URL.t) :
  URL.parse_file toASCII rest = Some u -> URL.scheme u = "file".
Proof.
  unfold URL.parse_file. intros H. break_match; now subst u.
Qed.

(** A text the parser accepts has a scheme. *)
Lemma parse_scheme_nonempty (toASCII : string -> option string) (text : string)
  (u : URL.t) :
  URL.parse toASCII text = Some u -> URL.scheme u <> "".
Proof.
  unfold URL.parse. intros H.
  destruct (URL.scan_scheme _) as [[scheme remaining] |] eqn:S; [| discriminate].
  apply scan_scheme_nonempty in S.
  destruct (String.eqb scheme "file").
  - apply parse_file_scheme in H. rewrite H. discriminate.
  - destruct (URL.is_special scheme).
    + apply parse_authority_scheme in H. now rewrite H.
    + break_match;
        try (apply parse_authority_scheme in H; now rewrite H);
        now subst u.
Qed.

Lemma domain_host_nonempty (toASCII : string -> option string)
  (domain : string) (h : URL.Host) :
  match URL.domain_to_ASCII toASCII domain with
  | None => None
  | Some asciiDomain =>
      if URL.ends_in_a_number asciiDomain
      then option_map URL.IPv4 (URL.ipv4_parse asciiDomain)
      else Some (URL.Domain asciiDomain)
  end = Some h ->
  URL.is_empty_host h = false.
Proof.
  unfold URL.domain_to_ASCII.
  match goal with
  | |- context [match (if ?b then ?x else ?y) with _ => _ end] =>
      destruct (if b then x else y) as [r |]; [| discriminate]
  end.
  destruct (String.eqb_spec r "") as [| Ne]; [discriminate |].
  destruct (URL.existsb _ r); [discriminate |].
  destruct (URL.ends_in_a_number r).
  - destruct (URL.ipv4_parse r); cbn; [| discriminate].
    now intros [= <-].
  - intros [= <-]. now destruct r.
Qed.

(** The host parser never answers with an empty host for a special URL. *)
Lemma host_parse_special (toASCII : string -> option string) (buffer : string)
  (h : URL.Host) :
  URL.host_parse toASCII false buffer = Some h -> URL.is_empty_host h = false.
Proof.
  unfold URL.host_parse.
  destruct buffer as [|c r]; [apply domain_host_nonempty |].
  destruct c as [[] [] [] [] [] [] [] []];
    try apply domain_host_nonempty.
  destruct (URL.ends_with_unit _ _); [| discriminate].
  destruct (URL.ipv6_parse _); cbn; [| discriminate].
  now intros [= <-].
Qed.

Lemma parse_authority_host (toASCII : string -> option string)
  (scheme s : string) (u : URL.t) :
  URL.parse_authority toASCII scheme true s = Some u ->
  exists h, URL.host u = Some h /\ URL.is_empty_host h = false.
Proof.
  unfold URL.parse_authority. cbn [negb]. intros H.
  break_match; subst u; cbn [URL.host]; eexists; (split; [reflexivity |]);
    eapply host_parse_special; eassumption.
Qed.

Lemma parse_file_host (toASCII : string -> option string) (rest : string)
  (u : URL.t) :
  URL.parse_file toASCII rest = Some u -> exists h, URL.host u = Some h.
Proof.
  unfold URL.parse_file. intros H.
  break_match; subst u; cbn [URL.host]; now eexists.
Qed.

(** A URL of a special scheme has a host, and outside [file:] not an empty
    one. *)
Lemma parse_special_host (toASCII : string -> option string) (text : string)
  (u : URL.t) :
  URL.parse toASCII text = Some u ->
  URL.is_special (URL.scheme u) = true ->
  exists h, URL.host u = Some h /\
            (URL.scheme u <> "file" -> URL.is_empty_host h = false).
Proof.
  unfold URL.parse. intros H Sp.
  destruct (URL.scan_scheme _) as [[scheme remaining] |] eqn:S; [| discriminate].
  destruct (String.eqb scheme "file") eqn:F.
  - pose proof (parse_file_scheme _ _ _ H) as E.
    destruct (parse_file_host _ _ _ H) as [h Hh].
    exists h. split; [exact Hh |]. intros N. now destruct N.
  - destruct (URL.is_special scheme) eqn:Sp'.
    + destruct (parse_authority_host _ _ _ _ H) as (h & Hh & Ne).
      exists h. now split.
    + exfalso.
      assert (E : URL.scheme u = scheme).
      { break_match;
          try (now apply parse_authority_scheme in H);
          now subst u. }
      rewrite E in Sp. congruence.
Qed.

(** A scheme that is not special, and no [//] after it: the rest is a path
    and the URL needs no host. *)
Lemma parse_without_authority (toASCII : string -> option string)
  (text scheme remaining : string) :
  URL.scan_scheme (URL.preprocess text) = Some (scheme, remaining) ->
  URL.is_special scheme = false ->
  Str.startsWith remaining "//" = false ->
  exists u, URL.parse toASCII text = Some u /\ URL.scheme u = scheme /\
            URL.host u = None.
Proof.
  intros S Sp Sl. unfold URL.parse. rewrite S.
  assert (F : String.eqb scheme "file" = false).
  { destruct (String.eqb_spec scheme "file") as [-> |]; [discriminate | reflexivity]. }
  rewrite F, Sp.
  destruct (URL.split_tail remaining) as [[p q] f] eqn:T.
  exists (URL.mk scheme None "" p q f).
  repeat split.
  clear T.
  destruct remaining as [|c1 rem]; [reflexivity |].
  destruct c1 as [[] [] [] [] [] [] [] []]; try reflexivity.
  destruct rem as [|c2 r]; [reflexivity |].
  destruct c2 as [[] [] [] [] [] [] [] []]; try reflexivity.
  discriminate Sl.
Qed.

(** C5 (as amended).  The pipeline calls [fetch] exactly when [new URL(text)]
    accepts the text; for every other text the only call is the chat message
    with the literal guidance text, and nothing is fetched.  What [new URL]
    accepts is an absolute URL: a text without a scheme is rejected; an
    accepted URL has a scheme, and when that scheme is special ([http],
    [https], [ftp], [ws], [wss], [file]) it has a host, which outside [file]
    is not empty.  Only for the other schemes is no host needed: there any
    text that does not continue with [//] is accepted, with a null host. *)
Theorem url_validation (w : World) (chatId : value) (text : string) :
  (if isValidUrl w (VStr text) then
     exists u rest,
       URL.parse (unicode_ToASCII w) text = Some u /\ URL.scheme u <> "" /\
       (URL.is_special (URL.scheme u) = true ->
        exists h, URL.host u = Some h /\
                  (URL.scheme u <> "file" -> URL.is_empty_host h = false)) /\
       trace (process w chatId (VStr text)) = Fetch text :: rest
   else
     URL.parse (unicode_ToASCII w) text = None /\
     trace (process w chatId (VStr text)) = [Get "sendMessage" chatId guidance]) /\
  (URL.scan_scheme (URL.preprocess text) = None ->
   isValidUrl w (VStr text) = false) /\
  (forall scheme remaining,
     URL.scan_scheme (URL.preprocess text) = Some (scheme, remaining) ->
     URL.is_special scheme = false ->
     Str.startsWith remaining "//" = false ->
     isValidUrl w (VStr text) = true /\
     exists u, URL.parse (unicode_ToASCII w) text = Some u /\ URL.host u = None).
Proof.
  split; [| split].
  - destruct (isValidUrl w (VStr text)) eqn:V.
    + unfold isValidUrl in V. cbn [ToString] in V.
      destruct (URL.parse (unicode_ToASCII w) text) as [u |] eqn:P; [| discriminate].
      assert (V' : isValidUrl w (VStr text) = true)
        by (unfold isValidUrl; cbn [ToString]; now rewrite P).
      rewrite (process_valid _ _ _ V').
      destruct (trace_try_catch (relay w chatId (VStr text)) (report w chatId))
        as [rest ->].
      exists u. unfold relay, await. cbn [ToString].
      unfold bind at 1.
      destruct (remote w text) as [resp | e].
      * match goal with
        | |- context [let (tr', r) := ?p in _] => destruct p as [tr' r]
        end.
        cbn [trace fst app]. eexists. repeat split.
        -- now apply (parse_scheme_nonempty (unicode_ToASCII w) text).
        -- now apply (parse_special_host (unicode_ToASCII w) text).
      * cbn [trace fst app]. eexists. repeat split.
        -- now apply (parse_scheme_nonempty (unicode_ToASCII w) text).
        -- now apply (parse_special_host (unicode_ToASCII w) text).
    + split.
      * unfold isValidUrl in V. cbn [ToString] in V.
        now destruct (URL.parse (unicode_ToASCII w) text).
      * rewrite (process_invalid _ _ _ V), notice_run. reflexivity.
  - intros S. unfold isValidUrl, URL.parse. cbn [ToString]. now rewrite S.
  - intros scheme remaining S Sp Sl.
    destruct (parse_without_authority (unicode_ToASCII w) _ _ _ S Sp Sl)
      as (u & P & _ & H).
    split; [| now exists u].
    unfold isValidUrl. cbn [ToString]. now rewrite P.
Qed.

Lemma url_validation_witness :
  isValidUrl offline (VStr "note: buy milk") = true /\
  exists u,
    URL.parse (unicode_ToASCII offline) "note: buy milk" = Some u /\
    URL.host u = None.
Proof.
  destruct (url_validation offline chat_42 "note: buy milk") as (_ & _ & Free).
  exact (Free "note" " buy milk" eq_refl eq_refl eq_refl).
Defined.

(** C5, counterexample.  [mailto:a] has a scheme and no host; [new URL]
    accepts it, so the pipeline fetches it and the chat gets the report of
    the failed fetch, not the guidance message. *)
Lemma hostless_url_is_fetched :
  URL.parse ascii_hosts_only "mailto:a" = Some (URL.mk "mailto" None "" "a" None None) /\
  isValidUrl offline (VStr "mailto:a") = true /\
  process offline chat_42 (VStr "mailto:a") =
    ([Fetch "mailto:a";
      Get "sendMessage" chat_42 "Error: Network connection lost."],
     Throw "Network connection lost.").
Proof. repeat split. Qed.

(** ** The display name *)

(** What [split('/').pop()] returns: the part of the string after its last
    slash, the whole string when it has none. *)
Lemma split_pop (s : string) :
  exists before segment,
    s = before ++ segment /\
    (before = "" \/ exists b, before = b ++ "/") /\
    Str.split "/" segment = [segment] /\
    Str.pop (Str.split "/" s) = Some segment /\
    (before = "" <-> Str.split "/" s = [segment]).
Proof.
  induction s as [|c r (before & g & Hr & Hslash & Hg & Hpop & Hone)].
  - exists "", "". repeat split; auto.
  - cbn [Str.split]. destruct (Ascii.eqb c "/") eqn:E.
    + apply Ascii.eqb_eq in E; subst c.
      exists (String "/" before), g.
      destruct (Str.split "/" r) as [|h t] eqn:S; [discriminate |].
      repeat split; try discriminate.
      * now rewrite Hr.
      * right. destruct Hslash as [-> | [b ->]];
          [now exists "" | now exists (String "/" b)].
      * exact Hg.
      * exact Hpop.
    + destruct (Str.split "/" r) as [|h [|h2 t]] eqn:S; [discriminate | |].
      * injection Hpop as ->.
        assert (before = "") as -> by now apply Hone.
        cbn in Hr; subst r.
        exists "", (String c g). repeat split; auto.
        cbn [Str.split]. now rewrite E, Hg.
      * exists (String c before), g.
        assert (Hb : before <> "") by (intros B; apply Hone in B; discriminate).
        repeat split; try discriminate.
        -- now rewrite Hr.
        -- right. destruct Hslash as [-> | [b ->]];
             [contradiction | now exists (String c b)].
        -- exact Hg.
        -- exact Hpop.
Qed.

(** C9 (as amended).  The display name is cut from the message text, not
    from the URL's path: it is the part of the text that follows its last
    slash (the whole text when there is none), query string and fragment
    included, and it is ["file"] when that part is empty, that is when the
    text ends in a slash. *)
Theorem display_name_is_text_tail (text : string) :
  exists before segment,
    text = before ++ segment /\
    (before = "" \/ exists b, before = b ++ "/") /\
    Str.split "/" segment = [segment] /\
    fileName_of (VStr text) =
      Normal (if String.eqb segment "" then "file" else segment).
Proof.
  destruct (split_pop text) as (before & segment & E & Hs & Hg & Hpop & _).
  exists before, segment. repeat split; auto.
  cbn [fileName_of]. rewrite Hpop. now destruct segment.
Qed.

(** C9, counterexample.  [https://example.com] has an empty path, for which
    the sentence promises ["file"]: the code names the upload after the
    host.  With a query string the name is not the last path segment
    either. *)
Lemma display_name_of_bare_host :
  URL.parse ascii_hosts_only "https://example.com" =
    Some (URL.mk "https" (Some (URL.Domain "example.com")) "" "" None None) /\
  spec_display_name (URL.mk "https" (Some (URL.Domain "example.com")) "" "" None None) = "file" /\
  fileName_of (VStr "https://example.com") = Normal "example.com" /\
  URL.parse ascii_hosts_only "https://example.com/a.png?v=1" =
    Some (URL.mk "https" (Some (URL.Domain "example.com")) "" "/a.png" (Some "v=1") None) /\
  spec_display_name
    (URL.mk "https" (Some (URL.Domain "example.com")) "" "/a.png" (Some "v=1") None) = "a.png" /\
  fileName_of (VStr "https://example.com/a.png?v=1") = Normal "a.png?v=1".
Proof. repeat split. Qed.

(** ** Messages without a usable text *)

(** C10.  For a message with a chat id whose [text] is absent or is any
    value that [new URL] rejects: [isValidUrl] catches the parser's error,
    the only call is the chat message with the guidance text, nothing is
    fetched, and [onMessage] throws only if that very call does.  An absent
    text reads as [undefined], which [new URL] rejects. *)
Theorem onMessage_without_url (w : World) (message chat chatId text : value) :
  get_prop message "chat" = Normal chat ->
  get_prop chat "id" = Normal chatId ->
  get_prop message "text" = Normal text ->
  text = VUndefined \/ isValidUrl w text = false ->
  trace (onMessage w message) = [Get "sendMessage" chatId guidance] /\
  (forall reply, telegram_get w "sendMessage" chatId guidance = Normal reply ->
                 completion (onMessage w message) = Normal tt) /\
  (forall e, completion (onMessage w message) = Throw e ->
             telegram_get w "sendMessage" chatId guidance = Throw e).
Proof.
  intros Hchat Hid Htext Hbad.
  assert (V : isValidUrl w text = false)
    by (destruct Hbad as [-> | H]; [reflexivity | exact H]).
  unfold onMessage.
  rewrite Hchat, bind_lift_normal, Hid, bind_lift_normal, Htext, bind_lift_normal.
  rewrite (process_invalid _ _ _ V), notice_run.
  cbn [app trace completion fst snd]. repeat split.
  - intros reply H; now rewrite H.
  - intros e. destruct (telegram_get w "sendMessage" chatId guidance);
      [discriminate | congruence].
Qed.

Lemma onMessage_without_url_witness :
  trace (onMessage offline message_without_text) =
    [Get "sendMessage" chat_42 "Please send a valid URL to download the file."] /\
  trace (onMessage (serving (response_200 None None)) message_without_text) =
    [Get "sendMessage" chat_42 "Please send a valid URL to download the file."] /\
  completion (onMessage (serving (response_200 None None)) message_without_text) =
    Normal tt.
Proof.
  split.
  - apply (onMessage_without_url offline message_without_text
             (VObj [("id", chat_42)]) chat_42 VUndefined
             eq_refl eq_refl eq_refl (or_introl eq_refl)).
  - destruct (onMessage_without_url (serving (response_200 None None))
                message_without_text (VObj [("id", chat_42)]) chat_42 VUndefined
                eq_refl eq_refl eq_refl (or_introl eq_refl)) as (T & Done & _).
    split; [exact T | exact (Done telegram_ok eq_refl)].
Defined.

(** ** The catch-all *)

(** The [try] block, step by step. *)
Lemma relay_unfold (w : World) (chatId text : value) :
  relay w chatId text =
  match remote w (ToString text) with
  | Throw e => ([Fetch (ToString text)], Throw e)
  | Normal resp =>
      if ok resp then
        match fileName_of text with
        | Throw e => ([Fetch (ToString text)], Throw e)
        | Normal fileName =>
            if number_gt (parseInt_header (content_length resp)) size_limit then
              ([Fetch (ToString text); Get "sendMessage" chatId too_large],
               match telegram_get w "sendMessage" chatId too_large with
               | Normal _ => Normal tt
               | Throw e => Throw e
               end)
            else
              match blob resp with
              | Throw e => ([Fetch (ToString text); ReadBlob], Throw e)
              | Normal fileBlob =>
                  match classify (content_type resp) fileName with
                  | Throw e => ([Fetch (ToString text); ReadBlob], Throw e)
                  | Normal kind =>
                      (Fetch (ToString text) :: ReadBlob
                         :: trace (send w kind chatId fileBlob fileName),
                       completion (send w kind chatId fileBlob fileName))
                  end
              end
        end
      else
        ([Fetch (ToString text)],
         Throw ("Failed to download file: " ++ statusText resp))
  end.
Proof.
  unfold relay. unfold await at 1. unfold bind at 1.
  destruct (remote w (ToString text)) as [resp | e]; [| reflexivity].
  destruct (ok resp); cbn [negb]; [| reflexivity].
  unfold lift at 1, bind at 1.
  destruct (fileName_of text) as [fileName | e]; [| reflexivity].
  cbn [app].
  destruct (number_gt _ _).
  - rewrite notice_run. reflexivity.
  - unfold await, lift, bind at 1.
    destruct (blob resp) as [fileBlob | e]; [| reflexivity].
    unfold bind at 1.
    destruct (classify _ _) as [kind | e]; [| reflexivity].
    destruct (send w kind chatId fileBlob _) as [tr r]. reflexivity.
Qed.

(** The [try] block throws exactly the errors of its steps. *)
Lemma relay_throws (w : World) (chatId text : value) (e : string) :
  completion (relay w chatId text) = Throw e <-> step_error w chatId text e.
Proof.
  rewrite relay_unfold. split.
  - destruct (remote w (ToString text)) as [resp | e0] eqn:Hf.
    + destruct (ok resp) eqn:Hok.
      * destruct (fileName_of text) as [fileName | e1] eqn:Hn.
        -- destruct (number_gt _ _) eqn:Hs.
           ++ cbn. destruct (telegram_get w _ chatId too_large) eqn:Hm;
                [discriminate |].
              intros [= <-]. eapply size_notice_fails; eauto.
           ++ destruct (blob resp) as [fileBlob | e2] eqn:Hb.
              ** destruct (classify _ _) as [kind | e3] eqn:Hc.
                 --- cbn. intros H. eapply upload_fails; eauto.
                 --- cbn. intros [= <-]. eapply classification_fails; eauto.
              ** cbn. intros [= <-]. eapply blob_fails; eauto.
        -- cbn. intros [= <-]. eapply split_fails; eauto.
      * cbn. intros [= <-]. eapply status_not_ok; eauto.
    + cbn. intros [= <-]. now apply fetch_rejects.
  - intros H. destruct H;
      repeat match goal with
             | H : _ = _ |- _ => rewrite H
             end; reflexivity.
Qed.

(** C6.  On a text that passed validation: whenever one of the steps inside
    the [try] block (fetch, status check, size check and its notice, reading
    the body, classification, upload) raises an error with message [e], the
    error is caught, the last call of the pipeline is the chat message
    ["Error: " ++ e], and the pipeline completes as that call does.  So the
    pipeline completes normally unless the report itself cannot be sent; no
    error of a step leaves it.  The dispatcher answers before the task runs
    and its answer does not depend on how the task ends. *)
Theorem catch_all (w : World) (chatId text : value) :
  isValidUrl w text = true ->
  (forall e, step_error w chatId text e ->
     exists before,
       process w chatId text =
         ((before ++ [Get "sendMessage" chatId ("Error: " ++ e)])%list,
          match telegram_get w "sendMessage" chatId ("Error: " ++ e) with
          | Normal _ => Normal tt
          | Throw e' => Throw e'
          end)) /\
  (completion (process w chatId text) = Normal tt \/
   exists e e',
     step_error w chatId text e /\
     telegram_get w "sendMessage" chatId ("Error: " ++ e) = Throw e' /\
     completion (process w chatId text) = Throw e') /\
  (forall SECRET request update,
     secret_token request = Some SECRET -> json request = Normal update ->
     snd (handleWebhook w SECRET request) =
       Normal {| body := "Ok"; status := 200 |}).
Proof.
  intros V. rewrite (process_valid _ _ _ V). repeat split.
  - intros e H. apply relay_throws in H.
    destruct (relay w chatId text) as [tr r]. cbn in H. subst r.
    exists tr. unfold try_catch, report. now rewrite notice_run.
  - destruct (relay w chatId text) as [tr [[] | e]] eqn:R.
    + now left.
    + assert (H : step_error w chatId text e)
        by (apply relay_throws; now rewrite R).
      unfold try_catch, report. rewrite notice_run.
      destruct (telegram_get w "sendMessage" chatId ("Error: " ++ e))
        as [reply | e'] eqn:S.
      * now left.
      * right. now exists e, e'.
  - intros SECRET request update Hs Hj. unfold handleWebhook, differs_from_secret.
    now rewrite Hs, String.eqb_refl, Hj.
Qed.

Lemma catch_all_witness :
  (exists before,
     process offline chat_42 (VStr "https://example.com/cat.png") =
       ((before ++
         [Get "sendMessage" chat_42 "Error: Network connection lost."])%list,
        Throw "Network connection lost.")) /\
  (exists before,
     process (serving (response_200 (Some "1000") None)) chat_42
       (VStr "https://example.com/cat.png") =
       ((before ++
         [Get "sendMessage" chat_42
            "Error: Cannot read properties of null (reading 'startsWith')"])%list,
        Normal tt)).
Proof.
  split.
  - destruct (catch_all offline chat_42 (VStr "https://example.com/cat.png")
                eq_refl) as (Caught & _ & _).
    exact (Caught "Network connection lost."
             (fetch_rejects offline chat_42
                (VStr "https://example.com/cat.png") _ eq_refl)).
  - destruct (catch_all (serving (response_200 (Some "1000") None)) chat_42
                (VStr "https://example.com/cat.png") eq_refl) as (Caught & _ & _).
    exact (Caught "Cannot read properties of null (reading 'startsWith')"
             (classification_fails
                (serving (response_200 (Some "1000") None)) chat_42
                (VStr "https://example.com/cat.png")
                (response_200 (Some "1000") None) "cat.png"
                [Byte.x00; Byte.x01] _
                eq_refl eq_refl eq_refl eq_refl eq_refl eq_refl)).
Defined.

(** ** The dispatcher *)

(** C7 (as amended).  When the secret header matches and the body parses as
    JSON, the handler reads the body, hands the update to [waitUntil] and
    answers 200 ["Ok"], whatever the parsed value is and whatever the world
    makes of the task. *)
Theorem webhook_acknowledged (w : World) (SECRET : string) (request : Request)
  (update : value) :
  secret_token request = Some SECRET ->
  json request = Normal update ->
  handleWebhook w SECRET request =
    ([ReadJson; WaitUntil (onUpdate w update)],
     Normal {| body := "Ok"; status := 200 |}).
Proof.
  intros Hs Hj. unfold handleWebhook, differs_from_secret.
  now rewrite Hs, String.eqb_refl, Hj.
Qed.

Lemma webhook_acknowledged_witness :
  handleWebhook offline "s3cret"
    {| secret_token := Some "s3cret"; json := Normal (VNum "5") |} =
    ([ReadJson;
      WaitUntil ([], Throw "Cannot use 'in' operator to search for 'message' in 5")],
     Normal {| body := "Ok"; status := 200 |}).
Proof.
  apply (webhook_acknowledged offline "s3cret"
           {| secret_token := Some "s3cret"; json := Normal (VNum "5") |}
           (VNum "5") eq_refl eq_refl).
Defined.

(** C7, counterexample.  The secret matches and the body is empty:
    [request.json()] rejects, the handler rejects with it, and no response is
    produced. *)
Lemma webhook_body_not_json :
  handleWebhook offline "s3cret"
    {| secret_token := Some "s3cret";
       json := Throw "Unexpected end of JSON input" |} =
    ([ReadJson], Throw "Unexpected end of JSON input").
Proof. reflexivity. Qed.

(** C8.  When the secret header is missing or differs from the configured
    secret, the handler answers 403 and does nothing else: the body is not
    read and no task is started. *)
Theorem webhook_unauthorized (w : World) (SECRET : string) (request : Request) :
  secret_token request <> Some SECRET ->
  handleWebhook w SECRET request =
    ([], Normal {| body := "Unauthorized"; status := 403 |}).
Proof.
  intros H. unfold handleWebhook, differs_from_secret.
  destruct (secret_token request) as [h |]; [| reflexivity].
  destruct (String.eqb h SECRET) eqn:E; [| reflexivity].
  apply String.eqb_eq in E. now subst h.
Qed.

Lemma webhook_unauthorized_witness :
  handleWebhook (serving (response_200 None None)) "s3cret"
    {| secret_token := Some "guess";
       json := Normal (VObj [("message", message_without_text)]) |} =
    ([], Normal {| body := "Unauthorized"; status := 403 |}).
Proof.
  apply (webhook_unauthorized (serving (response_200 None None)) "s3cret"
           {| secret_token := Some "guess";
              json := Normal (VObj [("message", message_without_text)]) |}).
  discriminate.
Defined.

(** ** The end-to-end scenarios of the specification, run on the model *)

(** Scenario A: an image of 1000 bytes is posted to [sendPhoto] under the
    name [cat.png]. *)
Example scenario_photo :
  process (serving (response_200 (Some "1000") (Some "image/png"))) chat_42
    (VStr "https://example.com/cat.png") =
  ([Fetch "https://example.com/cat.png"; ReadBlob;
    Post "sendPhoto" chat_42 "photo" [Byte.x00; Byte.x01] "cat.png"],
   Normal tt).
Proof. reflexivity. Qed.

(** Scenario B: a text that is not a URL. *)
Example scenario_not_a_url :
  process (serving (response_200 None None)) chat_42 (VStr "not a url") =
  ([Get "sendMessage" chat_42 "Please send a valid URL to download the file."],
   Normal tt).
Proof. reflexivity. Qed.

(** Scenario C: the remote server answers 404. *)
Example scenario_not_found :
  process
    (serving {| ok := false; statusText := "Not Found"; content_length := None;
                content_type := None; blob := Normal [] |})
    chat_42 (VStr "https://example.com/missing") =
  ([Fetch "https://example.com/missing";
    Get "sendMessage" chat_42 "Error: Failed to download file: Not Found"],
   Normal tt).
Proof. reflexivity. Qed.

(** Scenario D: a declared length of 60000000 bytes. *)
Example scenario_too_large :
  process (serving (response_200 (Some "60000000") None)) chat_42
    (VStr "https://example.com/film.mkv") =
  ([Fetch "https://example.com/film.mkv";
    Get "sendMessage" chat_42 "The file is too large to send (maximum: 50 MB)."],
   Normal tt).
Proof. reflexivity. Qed.

(** A platform reply with a falsy [ok] makes the upload throw, and the
    catch-all reports the platform's description. *)
Example scenario_upload_refused :
  process
    {| remote := fun _ => Normal (response_200 (Some "1000") (Some "audio/mpeg"));
       telegram_get := fun _ _ _ => Normal telegram_ok;
       telegram_post := fun _ _ _ _ _ =>
         Normal (VObj [("ok", VBool false);
                       ("description", VStr "Bad Request: chat not found")]);
       unicode_ToASCII := ascii_hosts_only |}
    chat_42 (VStr "https://example.com/song.mp3") =
  ([Fetch "https://example.com/song.mp3"; ReadBlob;
    Post "sendAudio" chat_42 "audio" [Byte.x00; Byte.x01] "song.mp3";
    Get "sendMessage" chat_42
      "Error: Failed to send audio: Bad Request: chat not found"],
   Normal tt).
Proof. reflexivity. Qed.

Example parseInt_samples :
  List.map parseInt_header
    [Some "60000000"; Some "52428800"; Some "12abc"; Some "abc"; Some ""; None] =
  [Some 60000000%Z; Some 52428800%Z; Some 12%Z; None; None; None].
Proof. reflexivity. Qed.

Example size_limit_value : size_limit = 52428800%Z.
Proof. reflexivity. Qed.

Example isValidUrl_samples :
  List.map (isValidUrl offline)
    [VStr "https://example.com/cat.png"; VStr "not a url"; VUndefined; VNull;
     VStr "example.com/cat.png"; VStr "http://"; VStr "note: buy milk";
     VArr [VStr "https://example.com/cat.png"]; VObj []] =
  [true; false; false; false; false; false; true; true; false].
Proof. reflexivity. Qed.

(** Hosts the parser decides without the Unicode tables, in any world: an
    IPv4 address with five parts, a last label that is a number, parts above
    255, a malformed IPv6 literal and an empty host are rejected; a
    percent-encoded letter, an IPv4 address in any of its notations and an
    IPv6 literal are accepted. *)
Example host_samples (w : World) :
  List.map (isValidUrl w)
    [VStr "http://1.2.3.4.5/cat.png"; VStr "http://a.1/";
     VStr "http://256.256.256.256"; VStr "http://[zz]"; VStr "http://1.2.3.08";
     VStr "https:///"; VStr "http://a%2Fb/";
     VStr "http://ex%41mple.com/cat.png"; VStr "file://ex%41mple/x";
     VStr "http://1.2.3.4/"; VStr "http://0x7f.1/"; VStr "http://[::1]:8080/";
     VStr "http://[::ffff:1.2.3.4]/"; VStr "HTTPS://EXAMPLE.COM/A.JPG"] =
  [false; false; false; false; false; false; false;
   true; true; true; true; true; true; true].
Proof. reflexivity. Qed.

Example host_values :
  List.map (URL.host_parse ascii_hosts_only false)
    ["ex%41mple.COM"; "0x7f.1"; "[1::2]"; "1.2.3.4.5"] =
  [Some (URL.Domain "example.com"); Some (URL.IPv4 2130706433);
   Some (URL.IPv6 [1; 0; 0; 0; 0; 0; 0; 2]%N); None].
Proof. reflexivity. Qed.

Example fileName_samples :
  List.map fileName_of
    [VStr "https://example.com/cat.png"; VStr "https://example.com/dir/";
     VStr "https://example.com/dir/?page=2"] =
  [Normal "cat.png"; Normal "file"; Normal "?page=2"].
Proof. reflexivity. Qed.

(** * Further properties of the worker *)

(** ** The upload operations *)

Lemma upload_run (w : World) (methodName field what : string) (chatId : value)
  (fileBlob : Blob) (fileName : string) :
  upload w methodName field what chatId fileBlob fileName =
  ([Post methodName chatId field fileBlob fileName],
   match telegram_post w methodName chatId field fileBlob fileName with
   | Throw e => Throw e
   | Normal result =>
       match get_prop result "ok" with
       | Throw e => Throw e
       | Normal isOk =>
           if truthy isOk then Normal tt
           else match get_prop result "description" with
                | Throw e => Throw e
                | Normal description =>
                    Throw ("Failed to send " ++ what ++ ": " ++ ToString description)
                end
       end
   end).
Proof.
  unfold upload, await, bind, lift, throw, ret.
  destruct (telegram_post _ _ _ _ _ _) as [result | e]; [| reflexivity].
  destruct (get_prop result "ok") as [isOk | e]; [| reflexivity].
  destruct (truthy isOk); cbn [negb]; [reflexivity |].
  destruct (get_prop result "description"); reflexivity.
Qed.

Lemma send_run (w : World) (kind : UploadKind) (chatId : value)
  (fileBlob : Blob) (fileName : string) :
  send w kind chatId fileBlob fileName =
  upload w (method_of kind) (field_of kind) (field_of kind) chatId fileBlob fileName.
Proof. now destruct kind. Qed.

(** X5.  Each upload operation issues exactly one POST, to the method and
    under the form field of its kind, whatever the platform answers: there is
    no retry.  It completes normally exactly when the reply is a value whose
    [ok] is truthy; a reply with a falsy [ok] makes it throw
    ["Failed to send <kind>: <description>"]. *)
Theorem upload_once (w : World) (kind : UploadKind) (chatId : value)
  (fileBlob : Blob) (fileName : string) :
  trace (send w kind chatId fileBlob fileName) =
    [Post (method_of kind) chatId (field_of kind) fileBlob fileName] /\
  (completion (send w kind chatId fileBlob fileName) = Normal tt <->
   exists result isOk,
     telegram_post w (method_of kind) chatId (field_of kind) fileBlob fileName
       = Normal result /\
     get_prop result "ok" = Normal isOk /\ truthy isOk = true) /\
  (forall result isOk description,
     telegram_post w (method_of kind) chatId (field_of kind) fileBlob fileName
       = Normal result ->
     get_prop result "ok" = Normal isOk -> truthy isOk = false ->
     get_prop result "description" = Normal description ->
     completion (send w kind chatId fileBlob fileName) =
       Throw ("Failed to send " ++ field_of kind ++ ": " ++ ToString description)).
Proof.
  rewrite send_run, upload_run. cbn [trace completion fst snd].
  split; [reflexivity |]. split; [split |].
  - destruct (telegram_post _ _ _ _ _ _) as [result | e]; [| discriminate].
    destruct (get_prop result "ok") as [isOk | e] eqn:O; [| discriminate].
    destruct (truthy isOk) eqn:T.
    + intros _. now exists result, isOk.
    + destruct (get_prop result "description"); discriminate.
  - intros (result & isOk & -> & -> & ->). reflexivity.
  - intros result isOk description -> -> -> ->. reflexivity.
Qed.

(** ** The shape of a run of the pipeline *)

(** Every run of [process] is one of five: the guidance message; a failed
    start (fetch, status or name) and its report; the size notice; a failure
    after the body is read and its report; an upload, followed by a report
    when it failed. *)
Lemma process_runs (w : World) (chatId text : value) :
  let u := ToString text in
  let oops e := Get "sendMessage" chatId ("Error: " ++ e) in
  (isValidUrl w text = false /\
   trace (process w chatId text) = [Get "sendMessage" chatId guidance])
  \/ (isValidUrl w text = true /\
      exists e, trace (process w chatId text) = [Fetch u; oops e])
  \/ (isValidUrl w text = true /\
      exists resp,
        remote w u = Normal resp /\ ok resp = true /\
        number_gt (parseInt_header (content_length resp)) size_limit = true /\
        (trace (process w chatId text) =
           [Fetch u; Get "sendMessage" chatId too_large] \/
         exists e, trace (process w chatId text) =
           [Fetch u; Get "sendMessage" chatId too_large; oops e]))
  \/ (isValidUrl w text = true /\
      exists resp e,
        remote w u = Normal resp /\ ok resp = true /\
        number_gt (parseInt_header (content_length resp)) size_limit = false /\
        trace (process w chatId text) = [Fetch u; ReadBlob; oops e])
  \/ (isValidUrl w text = true /\
      exists resp fileName fileBlob kind,
        remote w u = Normal resp /\ ok resp = true /\
        fileName_of text = Normal fileName /\
        number_gt (parseInt_header (content_length resp)) size_limit = false /\
        blob resp = Normal fileBlob /\
        classify (content_type resp) fileName = Normal kind /\
        let post := Post (method_of kind) chatId (field_of kind) fileBlob fileName in
        (trace (process w chatId text) = [Fetch u; ReadBlob; post] \/
         exists e, trace (process w chatId text) = [Fetch u; ReadBlob; post; oops e])).
Proof.
  intros u oops. subst u oops.
  destruct (isValidUrl w text) eqn:V.
  2:{ left. split; [reflexivity |].
      now rewrite (process_invalid _ _ _ V), notice_run. }
  right. rewrite (process_valid _ _ _ V), relay_unfold.
  unfold try_catch, report.
  destruct (remote w (ToString text)) as [resp | e] eqn:Hf.
  2:{ left. split; [reflexivity |]. exists e. now rewrite notice_run. }
  destruct (ok resp) eqn:Hok.
  2:{ left. split; [reflexivity |]. eexists. now rewrite notice_run. }
  destruct (fileName_of text) as [fileName | e] eqn:Hn.
  2:{ left. split; [reflexivity |]. exists e. now rewrite notice_run. }
  destruct (number_gt _ _) eqn:Hs.
  { right; left. split; [reflexivity |]. exists resp. repeat split; auto.
    destruct (telegram_get w "sendMessage" chatId too_large) as [r | e].
    - now left.
    - right. exists e. now rewrite notice_run. }
  destruct (blob resp) as [fileBlob | e] eqn:Hb.
  2:{ right; right; left. split; [reflexivity |]. exists resp, e.
      repeat split; auto. now rewrite notice_run. }
  destruct (classify _ _) as [kind | e] eqn:Hc.
  2:{ right; right; left. split; [reflexivity |]. exists resp, e.
      repeat split; auto. now rewrite notice_run. }
  right; right; right. split; [reflexivity |].
  exists resp, fileName, fileBlob, kind. repeat split; auto.
  rewrite send_run, upload_run. cbn [trace completion fst snd].
  match goal with
  | |- context [match ?r with Normal _ => _ | Throw _ => _ end] =>
      destruct r as [[] | e]
  end.
  - now left.
  - right. exists e. now rewrite notice_run.
Qed.

(** X1.  Whatever the pipeline posts is what it fetched: a POST occurs only
    after a fetch that succeeded with an [ok] status, a declared length not
    over the limit and a body that could be read; the file posted is that
    body, its name the display name, its chat the sender's, and the method
    and form field are those of the kind the cascade chose. *)
Theorem upload_is_the_fetched_body (w : World) (chatId text : value)
  (methodName : string) (chat : value) (field : string) (file : Blob)
  (name : string) :
  In (Post methodName chat field file name) (trace (process w chatId text)) ->
  isValidUrl w text = true /\ chat = chatId /\
  exists resp kind,
    remote w (ToString text) = Normal resp /\ ok resp = true /\
    number_gt (parseInt_header (content_length resp)) size_limit = false /\
    blob resp = Normal file /\
    fileName_of text = Normal name /\
    classify (content_type resp) name = Normal kind /\
    methodName = method_of kind /\ field = field_of kind.
Proof.
  intros H.
  destruct (process_runs w chatId text)
    as [(_ & T) | [(_ & e & T) | [(_ & resp & _ & _ & _ & [T | (e & T)])
       | [(_ & resp & e & _ & _ & _ & T)
       | (V & resp & fileName & fileBlob & kind
          & Hf & Hok & Hn & Hs & Hb & Hc & [T | (e & T)])]]]];
    rewrite T in H; cbn in H;
    repeat match goal with
           | H : _ \/ _ |- _ => destruct H as [H | H]
           | H : False |- _ => destruct H
           end;
    try discriminate;
    injection H as <- <- <- <- <-;
    (split; [exact V |]; split; [reflexivity |]);
    exists resp, kind; repeat split; auto.
Qed.

Lemma upload_is_the_fetched_body_witness :
  exists resp kind,
    remote (serving (response_200 (Some "1000") (Some "image/png")))
      "https://example.com/cat.png" = Normal resp /\ ok resp = true /\
    number_gt (parseInt_header (content_length resp)) size_limit = false /\
    blob resp = Normal [Byte.x00; Byte.x01] /\
    fileName_of (VStr "https://example.com/cat.png") = Normal "cat.png" /\
    classify (content_type resp) "cat.png" = Normal kind /\
    "sendPhoto" = method_of kind /\ "photo" = field_of kind.
Proof.
  apply (upload_is_the_fetched_body
           (serving (response_200 (Some "1000") (Some "image/png"))) chat_42
           (VStr "https://example.com/cat.png")
           "sendPhoto" chat_42 "photo" [Byte.x00; Byte.x01] "cat.png").
  cbn. right; right; left. reflexivity.
Defined.

(** X2.  No run of the pipeline fetches, reads a body or posts a file more
    than once. *)
Theorem at_most_one_of_each (w : World) (chatId text : value) :
  List.length (List.filter is_fetch (trace (process w chatId text))) <= 1 /\
  List.length (List.filter is_read (trace (process w chatId text))) <= 1 /\
  List.length (List.filter is_post (trace (process w chatId text))) <= 1.
Proof.
  destruct (process_runs w chatId text)
    as [(_ & T) | [(_ & e & T) | [(_ & resp & _ & _ & _ & [T | (e & T)])
       | [(_ & resp & e & _ & _ & _ & T)
       | (_ & resp & fileName & fileBlob & kind
          & _ & _ & _ & _ & _ & _ & [T | (e & T)])]]]];
    rewrite T; cbn; repeat split; lia.
Qed.

(** X3.  No run of the pipeline ends in silence: its last call is a call to
    the Telegram API addressed to the sender's chat, a chat message or the
    upload itself. *)
Theorem last_call_answers_the_chat (w : World) (chatId text : value) :
  exists before last,
    trace (process w chatId text) = (before ++ [last])%list /\
    chat_of last = Some chatId.
Proof.
  destruct (process_runs w chatId text)
    as [(_ & T) | [(_ & e & T) | [(_ & resp & _ & _ & _ & [T | (e & T)])
       | [(_ & resp & e & _ & _ & _ & T)
       | (_ & resp & fileName & fileBlob & kind
          & _ & _ & _ & _ & _ & _ & [T | (e & T)])]]]];
    rewrite T.
  - now exists [], (Get "sendMessage" chatId guidance).
  - now exists [Fetch (ToString text)], (Get "sendMessage" chatId ("Error: " ++ e)).
  - now exists [Fetch (ToString text)], (Get "sendMessage" chatId too_large).
  - now exists [Fetch (ToString text); Get "sendMessage" chatId too_large],
      (Get "sendMessage" chatId ("Error: " ++ e)).
  - now exists [Fetch (ToString text); ReadBlob],
      (Get "sendMessage" chatId ("Error: " ++ e)).
  - now exists [Fetch (ToString text); ReadBlob],
      (Post (method_of kind) chatId (field_of kind) fileBlob fileName).
  - now exists [Fetch (ToString text); ReadBlob;
                Post (method_of kind) chatId (field_of kind) fileBlob fileName],
      (Get "sendMessage" chatId ("Error: " ++ e)).
Qed.

(** X4.  Every call the pipeline makes to the Telegram API is addressed to
    the chat the message came from, and every chat message it sends goes
    through [sendMessage]. *)
Theorem calls_address_the_sender (w : World) (chatId text : value) (c : Call) :
  In c (trace (process w chatId text)) ->
  (forall chat, chat_of c = Some chat -> chat = chatId) /\
  (forall methodName chat message,
     c = Get methodName chat message -> methodName = "sendMessage").
Proof.
  intros H.
  destruct (process_runs w chatId text)
    as [(_ & T) | [(_ & e & T) | [(_ & resp & _ & _ & _ & [T | (e & T)])
       | [(_ & resp & e & _ & _ & _ & T)
       | (_ & resp & fileName & fileBlob & kind
          & _ & _ & _ & _ & _ & _ & [T | (e & T)])]]]];
    rewrite T in H; cbn in H;
    repeat match goal with
           | H : _ \/ _ |- _ => destruct H as [H | H]
           | H : False |- _ => destruct H
           end;
    subst c; split; cbn; intros; congruence.
Qed.

Lemma calls_address_the_sender_witness :
  (forall chat,
     chat_of (Get "sendMessage" chat_42 "Error: Network connection lost.")
       = Some chat -> chat = chat_42) /\
  (forall methodName chat message,
     Get "sendMessage" chat_42 "Error: Network connection lost."
       = Get methodName chat message -> methodName = "sendMessage").
Proof.
  apply (calls_address_the_sender offline chat_42
           (VStr "https://example.com/cat.png")).
  cbn. right; left. reflexivity.
Defined.

(** ** The extension tests *)

Lemma upper_lower_unit (c : ascii) :
  Str.upper_unit (Str.lower_unit c) = Str.upper_unit c.
Proof.
  destruct c as [[] [] [] [] [] [] [] []]; reflexivity.
Qed.

Lemma upper_map_lower (s : string) :
  Str.map Str.upper_unit (Str.toLowerCase s) = Str.map Str.upper_unit s.
Proof.
  induction s as [|c s IH]; [reflexivity |].
  unfold Str.toLowerCase in *; cbn [Str.map].
  now rewrite upper_lower_unit, IH.
Qed.

Lemma eqb_i_toLowerCase (pat s : string) :
  Str.eqb_i pat (Str.toLowerCase s) = Str.eqb_i pat s.
Proof. unfold Str.eqb_i. now rewrite upper_map_lower. Qed.

Lemma test_anchored_end_i_toLowerCase (pat s : string) :
  Str.test_anchored_end_i pat (Str.toLowerCase s) = Str.test_anchored_end_i pat s.
Proof.
  induction s as [|c s IH]; [reflexivity |].
  change (Str.toLowerCase (String c s))
    with (String (Str.lower_unit c) (Str.toLowerCase s)).
  cbn [Str.test_anchored_end_i]. rewrite IH. f_equal.
  change (String (Str.lower_unit c) (Str.toLowerCase s))
    with (Str.toLowerCase (String c s)).
  apply eqb_i_toLowerCase.
Qed.

Lemma test_extension_toLowerCase (alternatives : list string) (s : string) :
  Str.test_extension alternatives (Str.toLowerCase s) =
  Str.test_extension alternatives s.
Proof.
  unfold Str.test_extension.
  induction alternatives as [|a l IH]; [reflexivity |].
  cbn [List.existsb]. now rewrite IH, test_anchored_end_i_toLowerCase.
Qed.

(** X6.  On names made of 8-bit code units, the three extension tests do not
    depend on the letter case of the name: the [/i] flag already folds it, so
    testing the lower-cased name (line 89) and testing the name itself give
    the same answer. *)
Theorem extension_tests_ignore_case (fileName : string) :
  isImageExtension (Str.toLowerCase fileName) = isImageExtension fileName /\
  isVideoExtension (Str.toLowerCase fileName) = isVideoExtension fileName /\
  isAudioExtension (Str.toLowerCase fileName) = isAudioExtension fileName.
Proof.
  unfold isImageExtension, isVideoExtension, isAudioExtension.
  now rewrite !test_extension_toLowerCase.
Qed.

Lemma upper_unit_dot (c : ascii) : Str.upper_unit c = "."%char -> c = "."%char.
Proof.
  destruct c as [[] [] [] [] [] [] [] []]; cbv; intros H;
    first [reflexivity | discriminate H].
Qed.

(** A folded match of [.alt] is a dot followed by a spelling of [alt]. *)
Lemma eqb_i_dot (alt suf : string) :
  Str.toLowerCase alt = alt ->
  (Str.eqb_i ("." ++ alt) suf = true <->
   exists ext, suf = "." ++ ext /\ Str.toLowerCase ext = alt).
Proof.
  intros Low. unfold Str.eqb_i. rewrite String.eqb_eq. split.
  - destruct suf as [|c ext]; cbn; [discriminate |].
    intros [= Hc He]. symmetry in Hc. apply upper_unit_dot in Hc. subst c.
    exists ext. split; [reflexivity |].
    now rewrite <- (lower_map_upper ext), <- He, lower_map_upper.
  - intros (ext & -> & <-). cbn. f_equal. now rewrite upper_map_lower.
Qed.

Lemma test_extension_spec (alternatives : list string) (s : string) :
  Forall (fun a => Str.toLowerCase a = a) alternatives ->
  (Str.test_extension alternatives s = true <->
   exists stem ext,
     s = stem ++ "." ++ ext /\ In (Str.toLowerCase ext) alternatives).
Proof.
  intros Low. unfold Str.test_extension. rewrite existsb_exists. split.
  - intros (a & Ha & T).
    apply test_anchored_end_i_inv in T as (stem & suf & -> & E).
    rewrite Forall_forall in Low.
    apply (eqb_i_dot a suf (Low a Ha)) in E as (ext & -> & <-).
    now exists stem, ext.
  - intros (stem & ext & -> & Hin).
    exists (Str.toLowerCase ext). split; [exact Hin |].
    apply test_anchored_end_i_intro.
    rewrite Forall_forall in Low.
    apply (eqb_i_dot _ _ (Low _ Hin)). now exists ext.
Qed.

(** X8.  What the three regular expressions accept, on names made of 8-bit
    code units: a name passes the image (video, audio) test exactly when it
    is some stem, a dot, and an extension whose lower-case form is in the
    image (video, audio) list. *)
Theorem extension_tests_accept (fileName : string) :
  (isImageExtension fileName = true <->
   exists stem ext,
     fileName = stem ++ "." ++ ext /\
     In (Str.toLowerCase ext) ["jpg"; "jpeg"; "png"; "gif"; "bmp"; "webp"; "svg"]) /\
  (isVideoExtension fileName = true <->
   exists stem ext,
     fileName = stem ++ "." ++ ext /\
     In (Str.toLowerCase ext) ["mp4"; "avi"; "mov"; "mkv"; "wmv"; "flv"; "webm"]) /\
  (isAudioExtension fileName = true <->
   exists stem ext,
     fileName = stem ++ "." ++ ext /\
     In (Str.toLowerCase ext) ["mp3"; "wav"; "aac"; "flac"; "ogg"; "m4a"]).
Proof.
  repeat split;
    try (apply test_extension_spec; repeat constructor);
    try (apply (proj2 (test_extension_spec _ _ ltac:(repeat constructor)))).
Qed.

Lemma map_app_inv (f : ascii -> ascii) (q a b : string) :
  Str.map f q = a ++ b ->
  exists q1 q2, q = q1 ++ q2 /\ Str.map f q1 = a /\ Str.map f q2 = b.
Proof.
  revert q; induction a as [|c a IH]; intros q H.
  - now exists "", q.
  - destruct q as [|d q]; [discriminate |].
    cbn in H. injection H as Hc Hq.
    destruct (IH _ Hq) as (q1 & q2 & -> & <- & <-).
    exists (String d q1), q2. cbn. now rewrite Hc.
Qed.

(** Two patterns that match the end of one input: the shorter one matches
    the end of the longer one. *)
Lemma two_hits (p q s : string) :
  Str.test_anchored_end_i p s = true ->
  Str.test_anchored_end_i q s = true ->
  String.length p <= String.length q ->
  Str.test_anchored_end_i p q = true.
Proof.
  intros Hp Hq L.
  apply test_anchored_end_i_inv in Hp as (a & sp & -> & Ep).
  apply test_anchored_end_i_inv in Hq as (b & sq & E & Eq).
  pose proof (eqb_i_length _ _ Ep) as Lp.
  pose proof (eqb_i_length _ _ Eq) as Lq.
  destruct (app_suffix_align sp a sq b E) as [x ->]; [lia |].
  unfold Str.eqb_i in Ep, Eq. apply String.eqb_eq in Ep, Eq.
  rewrite map_app in Eq.
  destruct (map_app_inv _ _ _ _ Eq) as (q1 & q2 & -> & _ & H2).
  apply test_anchored_end_i_intro.
  unfold Str.eqb_i. apply String.eqb_eq. congruence.
Qed.

Lemma tests_disjoint (A B : list string) (s : string) :
  never_overlap A B = true ->
  Str.test_extension A s && Str.test_extension B s = false.
Proof.
  intros N.
  destruct (Str.test_extension A s) eqn:TA; [| reflexivity].
  destruct (Str.test_extension B s) eqn:TB; [| reflexivity].
  exfalso. unfold Str.test_extension in TA, TB.
  apply existsb_exists in TA as (a & Ha & Ta).
  apply existsb_exists in TB as (b & Hb & Tb).
  unfold never_overlap in N.
  rewrite forallb_forall in N. specialize (N a Ha).
  rewrite forallb_forall in N. specialize (N b Hb).
  apply andb_true_iff in N as [N1 N2].
  apply negb_true_iff in N1, N2.
  destruct (Nat.le_ge_cases (String.length ("." ++ a)) (String.length ("." ++ b)))
    as [L | L].
  - now rewrite (two_hits _ _ s Ta Tb L) in N1.
  - now rewrite (two_hits _ _ s Tb Ta L) in N2.
Qed.

(** X7.  No name passes two of the three extension tests: by its extension a
    file is an image, a video, an audio file, or none of them. *)
Theorem extension_tests_exclusive (fileName : string) :
  isImageExtension fileName && isVideoExtension fileName = false /\
  isImageExtension fileName && isAudioExtension fileName = false /\
  isVideoExtension fileName && isAudioExtension fileName = false.
Proof.
  unfold isImageExtension, isVideoExtension, isAudioExtension.
  repeat split; apply tests_disjoint; vm_compute; reflexivity.
Qed.

(** ** The size gate at and below the limit *)

(** X9.  The gate is strict: after a successful fetch, a declared length
    that [parseInt] reads as a number not above 50 * 1024 * 1024 (the limit
    itself, zero, a negative number) lets the resource through; the body is
    read and the size notice is not sent. *)
Theorem size_gate_lets_through (w : World) (chatId : value) (url : string)
  (resp : FetchResponse) (n : Z) :
  isValidUrl w (VStr url) = true ->
  remote w url = Normal resp ->
  ok resp = true ->
  parseInt_header (content_length resp) = Some n ->
  (n <= 50 * 1024 * 1024)%Z ->
  (exists rest, trace (process w chatId (VStr url)) = Fetch url :: ReadBlob :: rest) /\
  ~ In (Get "sendMessage" chatId too_large) (trace (process w chatId (VStr url))).
Proof.
  intros V Hf Hok Hn Hle.
  assert (Hs : number_gt (parseInt_header (content_length resp)) size_limit = false).
  { rewrite Hn. unfold number_gt, size_limit. apply Z.ltb_ge. exact Hle. }
  destruct (process_runs w chatId (VStr url))
    as [(V' & _) | [(_ & e & T) | [(_ & resp' & Hf' & _ & Hs' & _)
       | [(_ & resp' & e & _ & _ & _ & T)
       | (_ & resp' & fileName & fileBlob & kind
          & _ & _ & _ & _ & _ & _ & [T | (e & T)])]]]];
    cbn [ToString] in *.
  - congruence.
  - exfalso. revert T. rewrite (process_valid _ _ _ V), (relay_fetched _ _ _ _ Hf Hok).
    cbv zeta. rewrite Hs.
    destruct (blob resp); [destruct (classify _ _) |];
      match goal with
      | |- context [try_catch ?m ?h] =>
          destruct (trace_try_catch m h) as [rest ->]
      end; cbn [trace fst app]; discriminate.
  - rewrite Hf in Hf'. injection Hf' as <-. congruence.
  - rewrite T. split; [now eexists |].
    intros [H | [H | [H | []]]]; discriminate.
  - rewrite T. split; [now eexists |].
    intros [H | [H | [H | []]]]; discriminate.
  - rewrite T. split; [now eexists |].
    intros [H | [H | [H | [H | []]]]]; discriminate.
Qed.

Lemma size_gate_lets_through_witness :
  (exists rest,
     trace (process (serving (response_200 (Some "52428800") (Some "video/mp4")))
              chat_42 (VStr "https://example.com/film.mp4")) =
     Fetch "https://example.com/film.mp4" :: ReadBlob :: rest) /\
  ~ In (Get "sendMessage" chat_42 too_large)
      (trace (process (serving (response_200 (Some "52428800") (Some "video/mp4")))
                chat_42 (VStr "https://example.com/film.mp4"))).
Proof.
  apply (size_gate_lets_through
           (serving (response_200 (Some "52428800") (Some "video/mp4"))) chat_42
           "https://example.com/film.mp4"
           (response_200 (Some "52428800") (Some "video/mp4")) 52428800%Z
           eq_refl eq_refl eq_refl eq_refl).
  lia.
Defined.

(** ** The display name as a file name *)

(** X17.  Only a string has a display name, and a display name is never
    empty and never contains a slash. *)
Theorem display_name_is_a_file_name (text : value) (name : string) :
  fileName_of text = Normal name ->
  (exists s, text = VStr s) /\ name <> "" /\ Str.split "/" name = [name].
Proof.
  destruct text; cbn [fileName_of]; try discriminate.
  intros H. split; [now eexists |].
  destruct (split_pop s) as (before & segment & _ & _ & Hg & Hpop & _).
  rewrite Hpop in H. destruct segment as [|c r].
  - injection H as <-. split; [discriminate | reflexivity].
  - injection H as <-. split; [discriminate | exact Hg].
Qed.

Lemma display_name_is_a_file_name_witness :
  (exists s, VStr "https://example.com/dir/" = VStr s) /\
  "file" <> "" /\ Str.split "/" "file" = ["file"].
Proof.
  apply (display_name_is_a_file_name (VStr "https://example.com/dir/") "file").
  reflexivity.
Defined.

(** ** Updates *)

(** X13.  An update without a [message] key (an edited message, a channel
    post, an empty object, an array) is dropped: no call is made and
    [onUpdate] completes normally.  Conversely, [onUpdate] makes an outbound
    call only for an update that is an object whose [message] has a [chat]
    to read an [id] from, and what it then runs is the pipeline on that id
    and the message's [text]. *)
Theorem onUpdate_traffic (w : World) (update : value) :
  (has_property "message" update = Normal false ->
   onUpdate w update = ([], Normal tt)) /\
  (trace (onUpdate w update) <> [] ->
   exists message chat chatId text,
     has_property "message" update = Normal true /\
     get_prop update "message" = Normal message /\
     get_prop message "chat" = Normal chat /\
     get_prop chat "id" = Normal chatId /\
     get_prop message "text" = Normal text /\
     onUpdate w update = process w chatId text).
Proof.
  unfold onUpdate. split.
  - intros H. now rewrite H, bind_lift_normal.
  - destruct (has_property "message" update) as [[|] | e]; cycle 1.
    + rewrite bind_lift_normal. intros H; now destruct H.
    + intros H; now destruct H.
    + rewrite bind_lift_normal.
      destruct (get_prop update "message") as [message | e] eqn:Hm;
        [| intros H; now destruct H].
      rewrite bind_lift_normal. unfold onMessage.
      destruct (get_prop message "chat") as [chat | e] eqn:Hc;
        [| intros H; now destruct H].
      rewrite bind_lift_normal.
      destruct (get_prop chat "id") as [chatId | e] eqn:Hi;
        [| intros H; now destruct H].
      rewrite bind_lift_normal.
      destruct (get_prop message "text") as [text | e] eqn:Ht;
        [| intros H; now destruct H].
      rewrite bind_lift_normal. intros _.
      now exists message, chat, chatId, text.
Qed.

(** ** Texts without a colon *)

Lemma existsb_app (p : ascii -> bool) (a b : string) :
  URL.existsb p (a ++ b) = URL.existsb p a || URL.existsb p b.
Proof.
  induction a as [|c a IH]; cbn; [reflexivity |].
  now rewrite IH, orb_assoc.
Qed.

Lemma break_at_app (stop : ascii -> bool) (s a b : string) :
  URL.break_at stop s = (a, b) -> s = a ++ b.
Proof.
  revert a b; induction s as [|c s IH]; intros a b; cbn.
  - now intros [= <- <-].
  - destruct (stop c); [now intros [= <- <-] |].
    destruct (URL.break_at stop s) as [a' b'].
    intros [= <- <-]. cbn. f_equal. now apply IH.
Qed.

Lemma existsb_filter (p q : ascii -> bool) (s : string) :
  URL.existsb p (URL.filter q s) = true -> URL.existsb p s = true.
Proof.
  induction s as [|c s IH]; cbn; [trivial |].
  destruct (q c); cbn; intros H.
  - apply orb_true_iff in H as [H | H]; [now rewrite H |].
    rewrite (IH H). apply orb_true_r.
  - rewrite (IH H). apply orb_true_r.
Qed.

Lemma existsb_drop_while (p q : ascii -> bool) (s : string) :
  URL.existsb p (URL.drop_while q s) = true -> URL.existsb p s = true.
Proof.
  induction s as [|c s IH]; cbn; [trivial |].
  destruct (q c); [| trivial].
  intros H. rewrite (IH H). apply orb_true_r.
Qed.

Lemma existsb_drop_while_end (p q : ascii -> bool) (s : string) :
  URL.existsb p (URL.drop_while_end q s) = true -> URL.existsb p s = true.
Proof.
  induction s as [|c s IH]; cbn; [trivial |].
  destruct (URL.drop_while_end q s) as [|d r].
  - destruct (q c); cbn; [discriminate |].
    rewrite orb_false_r. intros ->. reflexivity.
  - cbn [URL.existsb]. intros H.
    apply orb_true_iff in H as [H | H]; [now rewrite H |].
    rewrite (IH H). apply orb_true_r.
Qed.

Lemma scan_scheme_colon (s scheme remaining : string) :
  URL.scan_scheme s = Some (scheme, remaining) ->
  URL.existsb (fun c => Ascii.eqb c ":") s = true.
Proof.
  unfold URL.scan_scheme.
  destruct s as [|c r]; [discriminate |].
  destruct (Str.is_alpha c); [| discriminate].
  destruct (URL.break_at _ r) as [buffer rest] eqn:B.
  apply break_at_app in B. subst r.
  destruct rest as [|d rest]; [discriminate |].
  destruct (Ascii.eqb d ":") eqn:D.
  - intros _. cbn [URL.existsb]. rewrite existsb_app. cbn [URL.existsb].
    rewrite D. rewrite !orb_true_r. reflexivity.
  - apply Ascii.eqb_neq in D. intros H. exfalso.
    destruct d as [[] [] [] [] [] [] [] []]; try discriminate H.
    now apply D.
Qed.

Lemma parse_colon (toASCII : string -> option string) (text : string)
  (u : URL.t) :
  URL.parse toASCII text = Some u ->
  URL.existsb (fun c => Ascii.eqb c ":") text = true.
Proof.
  unfold URL.parse, URL.preprocess.
  destruct (URL.scan_scheme _) as [[scheme remaining] |] eqn:S; [| discriminate].
  intros _. apply scan_scheme_colon in S.
  apply existsb_filter in S.
  apply existsb_drop_while_end in S.
  now apply existsb_drop_while in S.
Qed.

(** X15.  A text with no colon in it is never taken for a URL: whatever
    else it contains (dots, slashes, a host name), [isValidUrl] rejects it,
    nothing is fetched, and the chat gets the guidance message. *)
Theorem text_without_colon (w : World) (chatId : value) (text : string) :
  URL.existsb (fun c => Ascii.eqb c ":") text = false ->
  isValidUrl w (VStr text) = false /\
  trace (process w chatId (VStr text)) = [Get "sendMessage" chatId guidance].
Proof.
  intros H.
  assert (V : isValidUrl w (VStr text) = false).
  { unfold isValidUrl. cbn [ToString].
    destruct (URL.parse (unicode_ToASCII w) text) as [u |] eqn:P; [| reflexivity].
    apply parse_colon in P. congruence. }
  split; [exact V |].
  now rewrite (process_invalid _ _ _ V), notice_run.
Qed.

Lemma text_without_colon_witness :
  isValidUrl offline (VStr "www.example.com/cat.png") = false /\
  trace (process offline chat_42 (VStr "www.example.com/cat.png")) =
    [Get "sendMessage" chat_42 guidance].
Proof.
  apply (text_without_colon offline chat_42 "www.example.com/cat.png").
  reflexivity.
Defined.

(** ** The URLs of the Telegram API *)

Lemma forallb_app (p : ascii -> bool) (a b : string) :
  URL.forallb p (a ++ b) = URL.forallb p a && URL.forallb p b.
Proof.
  induction a as [|c a IH]; cbn; [reflexivity |].
  now rewrite IH, andb_assoc.
Qed.

Lemma encode_byte_plain (b : ascii) :
  URL.forallb Form.plain (Form.encode_byte b) = true.
Proof.
  destruct b as [[] [] [] [] [] [] [] []]; reflexivity.
Qed.

Lemma encode_plain (s : string) : URL.forallb Form.plain (Form.encode s) = true.
Proof.
  unfold Form.encode.
  induction (Form.flat_map Form.utf8 s) as [|b r IH]; [reflexivity |].
  cbn [Form.flat_map]. now rewrite forallb_app, encode_byte_plain, IH.
Qed.

Lemma percent_decode_byte (b : ascii) (r : string) :
  Form.percent_decode (Form.encode_byte b ++ r) = String b (Form.percent_decode r).
Proof.
  destruct b as [[] [] [] [] [] [] [] []]; reflexivity.
Qed.

Lemma utf8_decode_unit (c : ascii) (r : string) :
  Form.utf8_decode (Form.utf8 c ++ r) = String c (Form.utf8_decode r).
Proof.
  destruct c as [[] [] [] [] [] [] [] []]; reflexivity.
Qed.

(** Decoding what [encode] produced gives the string back. *)
Lemma decode_encode (s : string) : Form.decode (Form.encode s) = s.
Proof.
  unfold Form.decode, Form.encode.
  assert (P : forall bytes,
             Form.percent_decode (Form.flat_map Form.encode_byte bytes) = bytes).
  { induction bytes as [|b r IH]; [reflexivity |].
    cbn [Form.flat_map]. now rewrite percent_decode_byte, IH. }
  rewrite P.
  induction s as [|c r IH]; [reflexivity |].
  cbn [Form.flat_map]. now rewrite utf8_decode_unit, IH.
Qed.

Lemma encode_injective (a b : string) : Form.encode a = Form.encode b -> a = b.
Proof.
  intros H. now rewrite <- (decode_encode a), H, decode_encode.
Qed.

Lemma app_cancel_l (a x y : string) : a ++ x = a ++ y -> x = y.
Proof.
  induction a as [|c a IH]; cbn; [trivial |].
  intros [= H]. now apply IH.
Qed.

(** The URL of a chat message, spelled out. *)
Lemma message_url (TOKEN : string) (chatId : value) (text : string) :
  apiUrl TOKEN "sendMessage" (Some [("chat_id", chatId); ("text", VStr text)]) =
  ("https://api.telegram.org/bot" ++ TOKEN ++ "/sendMessage?chat_id="
     ++ Form.encode (ToString chatId) ++ "&text=") ++ Form.encode text.
Proof.
  unfold apiUrl, Form.serialize.
  cbn [List.map fst snd String.concat ToString].
  change (Form.encode "chat_id") with "chat_id".
  change (Form.encode "text") with "text".
  rewrite !app_assoc. reflexivity.
Qed.

(** X10.  The URL of a chat message is
    [https://api.telegram.org/bot<TOKEN>/sendMessage?chat_id=<id>&text=<text>]
    with the id and the text form-encoded.  An encoded value holds only
    letters, digits and [* - . _ + %], so a text cannot close the [text]
    parameter, open another one, or start a fragment. *)
Theorem message_url_is_well_formed (TOKEN : string) (chatId : value)
  (text : string) :
  call_url TOKEN (Get "sendMessage" chatId text) =
    Some ("https://api.telegram.org/bot" ++ TOKEN ++ "/sendMessage?chat_id="
          ++ Form.encode (ToString chatId) ++ "&text=" ++ Form.encode text) /\
  URL.forallb Form.plain (Form.encode (ToString chatId)) = true /\
  URL.forallb Form.plain (Form.encode text) = true /\
  URL.existsb (fun c => Ascii.eqb c "&" || Ascii.eqb c "=" || Ascii.eqb c "#"
                        || Ascii.eqb c "?" || Ascii.eqb c "/" || Ascii.eqb c " ")
    (Form.encode text) = false.
Proof.
  split; [| split; [apply encode_plain | split; [apply encode_plain |]]].
  - cbn [call_url]. rewrite message_url. f_equal.
    rewrite !app_assoc. reflexivity.
  - pose proof (encode_plain text) as P.
    induction (Form.encode text) as [|c r IH]; [reflexivity |].
    cbn [URL.forallb] in P. apply andb_true_iff in P as [Pc Pr].
    cbn [URL.existsb]. rewrite (IH Pr), orb_false_r.
    destruct c as [[] [] [] [] [] [] [] []]; try reflexivity; discriminate Pc.
Qed.

(** X11.  The form encoding loses nothing, so the URL of a chat message
    determines its text: two messages to the same chat that are sent to the
    same URL have the same text. *)
Theorem message_url_determines_text (TOKEN : string) (chatId : value)
  (text text' : string) :
  call_url TOKEN (Get "sendMessage" chatId text) =
  call_url TOKEN (Get "sendMessage" chatId text') ->
  text = text'.
Proof.
  cbn [call_url]. rewrite !message_url. intros [= H].
  apply app_cancel_l in H. now apply encode_injective.
Qed.

Lemma message_url_determines_text_witness :
  "a&b=c d" = "a&b=c d".
Proof.
  apply (message_url_determines_text "123:ABC" chat_42 "a&b=c d" "a&b=c d").
  reflexivity.
Defined.

(** ** The administrative endpoints and the listener *)

Lemma admin_run (url : string) (api : string -> outcome value)
  (done failed : string) :
  (result <- await (Fetch url) (api url) ;;
   isOk <- lift (get_prop result "ok") ;;
   if truthy isOk then ret {| body := done; status := 200 |}
   else ret {| body := failed ++ JSON.stringify result; status := 500 |}) =
  ([Fetch url],
   match api url with
   | Throw e => Throw e
   | Normal result =>
       match get_prop result "ok" with
       | Throw e => Throw e
       | Normal isOk =>
           Normal (if truthy isOk then {| body := done; status := 200 |}
                   else {| body := failed ++ JSON.stringify result;
                           status := 500 |})
       end
   end).
Proof.
  unfold await, bind, lift, ret.
  destruct (api url) as [result | e]; [| reflexivity].
  destruct (get_prop result "ok") as [isOk | e]; [| reflexivity].
  now destruct (truthy isOk).
Qed.

Lemma setWebhook_url (TOKEN : string) (requestUrl : RequestUrl)
  (suffix secret : string) :
  apiUrl TOKEN "setWebhook"
    (Some [("url", VStr (protocol requestUrl ++ "//" ++ hostname requestUrl ++ suffix));
           ("secret_token", VStr secret)]) =
  "https://api.telegram.org/bot" ++ TOKEN ++ "/setWebhook?url="
    ++ Form.encode (protocol requestUrl ++ "//" ++ hostname requestUrl ++ suffix)
    ++ "&secret_token=" ++ Form.encode secret.
Proof.
  unfold apiUrl, Form.serialize.
  cbn [List.map fst snd String.concat ToString].
  change (Form.encode "url") with "url".
  change (Form.encode "secret_token") with "secret_token".
  rewrite !app_assoc. reflexivity.
Qed.

(** X12.  [setWebhook] makes one call, a GET of the [setWebhook] method with
    two form-encoded parameters: [url], which is the protocol and the host
    name of the request followed by the suffix (the request's port, path and
    query are not part of it), and [secret_token].  It answers 200 when the
    reply's [ok] is truthy and otherwise 500 with the reply dumped as JSON;
    it throws when the call fails or the reply is [null]. *)
Theorem setWebhook_registers (TOKEN : string) (api : string -> outcome value)
  (requestUrl : RequestUrl) (suffix secret : string) :
  let url :=
    "https://api.telegram.org/bot" ++ TOKEN ++ "/setWebhook?url="
      ++ Form.encode (protocol requestUrl ++ "//" ++ hostname requestUrl ++ suffix)
      ++ "&secret_token=" ++ Form.encode secret in
  trace (setWebhook TOKEN api requestUrl suffix secret) = [Fetch url] /\
  completion (setWebhook TOKEN api requestUrl suffix secret) =
    match api url with
    | Throw e => Throw e
    | Normal result =>
        match get_prop result "ok" with
        | Throw e => Throw e
        | Normal isOk =>
            Normal (if truthy isOk
                    then {| body := "Webhook registered successfully!";
                            status := 200 |}
                    else {| body := "Failed to register webhook: "
                                    ++ JSON.stringify result;
                            status := 500 |})
        end
    end.
Proof.
  intros url. unfold setWebhook. cbv zeta.
  rewrite setWebhook_url. fold url. rewrite admin_run. now split.
Qed.

(** X14.  [unregisterWebhook] makes one call, a GET of
    [.../setWebhook?url=]: the [url] parameter is empty and no secret is
    sent.  It answers 200 when the reply's [ok] is truthy and otherwise 500
    with the reply dumped as JSON. *)
Theorem unregisterWebhook_clears (TOKEN : string) (api : string -> outcome value) :
  let url := "https://api.telegram.org/bot" ++ TOKEN ++ "/setWebhook?url=" in
  trace (unregisterWebhook TOKEN api) = [Fetch url] /\
  completion (unregisterWebhook TOKEN api) =
    match api url with
    | Throw e => Throw e
    | Normal result =>
        match get_prop result "ok" with
        | Throw e => Throw e
        | Normal isOk =>
            Normal (if truthy isOk
                    then {| body := "Webhook unregistered successfully!";
                            status := 200 |}
                    else {| body := "Failed to unregister webhook: "
                                    ++ JSON.stringify result;
                            status := 500 |})
        end
    end.
Proof.
  intros url. unfold unregisterWebhook. cbv zeta.
  assert (E : apiUrl TOKEN "setWebhook" (Some [("url", VStr "")]) = url).
  { unfold apiUrl, Form.serialize, url.
    cbn [List.map fst snd String.concat ToString].
    change (Form.encode "url") with "url".
    change (Form.encode "") with "".
    reflexivity. }
  rewrite E, admin_run. now split.
Qed.

(** X16.  The listener routes on the exact path.  Only [/endpoint] reaches
    the webhook handler: on any other path the secret is not checked, the
    body is not read and no task is started.  Only [/setwebhook] and
    [/unregisterwebhook] call the Telegram API from the listener.  Every
    other path, [/endpoint/] or [/Endpoint] included, is answered 200
    ["No handler for this request"]. *)
Theorem listener_routes (TOKEN SECRET : string) (w : World)
  (api : string -> outcome value) (event : FetchEvent) :
  let served := listener TOKEN SECRET w api event in
  let path := pathname (request_url event) in
  (path = "/endpoint" ->
   (steps served, answer served) = handleWebhook w SECRET (request event) /\
   calls served = []) /\
  (path <> "/endpoint" -> steps served = []) /\
  (path <> "/setwebhook" -> path <> "/unregisterwebhook" -> calls served = []) /\
  (path <> "/endpoint" -> path <> "/setwebhook" ->
   path <> "/unregisterwebhook" ->
   served = {| steps := []; calls := [];
               answer := Normal {| body := "No handler for this request";
                                   status := 200 |} |}).
Proof.
  intros served path. subst served. unfold listener. cbv zeta. fold path.
  unfold WEBHOOK.
  destruct (String.eqb_spec path "/endpoint") as [E | E].
  - destruct (handleWebhook w SECRET (request event)) as [s r].
    repeat split; intros; try reflexivity; contradiction.
  - destruct (String.eqb_spec path "/setwebhook") as [E1 | E1].
    + destruct (setWebhook _ _ _ _ _) as [c r].
      repeat split; intros; try reflexivity; contradiction.
    + destruct (String.eqb_spec path "/unregisterwebhook") as [E2 | E2].
      * destruct (unregisterWebhook _ _) as [c r].
        repeat split; intros; try reflexivity; contradiction.
      * repeat split; intros; try reflexivity; contradiction.
Qed.

(** ** A fetch that fails, and a relay that succeeds *)

(** X18.  When the fetch of a valid URL rejects, or resolves with a status
    that is not [ok], the pipeline stops there: the body is not read,
    nothing is uploaded, whatever the headers say, and the only other call is
    the report, ["Error: " ++ e] for a rejection with message [e] and
    ["Error: Failed to download file: " ++ statusText] for a bad status. *)
Theorem failed_fetch_is_reported (w : World) (chatId text : value) :
  isValidUrl w text = true ->
  (forall e, remote w (ToString text) = Throw e ->
     trace (process w chatId text) =
       [Fetch (ToString text); Get "sendMessage" chatId ("Error: " ++ e)]) /\
  (forall resp, remote w (ToString text) = Normal resp -> ok resp = false ->
     trace (process w chatId text) =
       [Fetch (ToString text);
        Get "sendMessage" chatId
          ("Error: Failed to download file: " ++ statusText resp)]).
Proof.
  intros V. rewrite (process_valid _ _ _ V), relay_unfold.
  split.
  - intros e ->. unfold try_catch, report. now rewrite notice_run.
  - intros resp -> ->. unfold try_catch, report. now rewrite notice_run.
Qed.

Lemma failed_fetch_is_reported_witness :
  trace (process offline chat_42 (VStr "https://example.com/cat.png")) =
    [Fetch "https://example.com/cat.png";
     Get "sendMessage" chat_42 "Error: Network connection lost."].
Proof.
  destruct (failed_fetch_is_reported offline chat_42
              (VStr "https://example.com/cat.png") eq_refl) as [Rejected _].
  exact (Rejected "Network connection lost." eq_refl).
Defined.

(** X19.  The relay end to end: for a valid URL whose fetch succeeds with a
    declared length that passes the gate, a readable body and a kind chosen
    by the cascade, when the platform accepts the upload the run is exactly
    fetch, read, one POST of the body under the display name to the method of
    that kind, and no chat message is sent. *)
Theorem successful_relay (w : World) (chatId : value) (url : string)
  (resp : FetchResponse) (fileName : string) (fileBlob : Blob)
  (kind : UploadKind) (result isOk : value) :
  isValidUrl w (VStr url) = true ->
  remote w url = Normal resp ->
  ok resp = true ->
  number_gt (parseInt_header (content_length resp)) size_limit = false ->
  blob resp = Normal fileBlob ->
  fileName_of (VStr url) = Normal fileName ->
  classify (content_type resp) fileName = Normal kind ->
  telegram_post w (method_of kind) chatId (field_of kind) fileBlob fileName
    = Normal result ->
  get_prop result "ok" = Normal isOk ->
  truthy isOk = true ->
  process w chatId (VStr url) =
    ([Fetch url; ReadBlob;
      Post (method_of kind) chatId (field_of kind) fileBlob fileName],
     Normal tt).
Proof.
  intros V Hf Hok Hs Hb Hn Hc Hp Ho Ht.
  rewrite (process_valid _ _ _ V), relay_unfold. cbn [ToString].
  rewrite Hf, Hok, Hn, Hs, Hb, Hc, send_run, upload_run.
  cbn [trace completion fst snd]. now rewrite Hp, Ho, Ht.
Qed.

Lemma successful_relay_witness :
  process (serving (response_200 (Some "1000") (Some "application/octet-stream")))
    chat_42 (VStr "https://example.com/talk.MP3") =
    ([Fetch "https://example.com/talk.MP3"; ReadBlob;
      Post "sendAudio" chat_42 "audio" [Byte.x00; Byte.x01] "talk.MP3"],
     Normal tt).
Proof.
  apply (successful_relay
           (serving (response_200 (Some "1000") (Some "application/octet-stream")))
           chat_42 "https://example.com/talk.MP3"
           (response_200 (Some "1000") (Some "application/octet-stream"))
           "talk.MP3" [Byte.x00; Byte.x01] Audio telegram_ok (VBool true));
    reflexivity.
Defined.
